(** * The gluegun runtime: plugin and extension registries

    A shallow embedding of [src/runtime/runtime.ts] (class [Runtime]) and
    the properties its specification states about it.

    The class mutates itself and the [Plugin] objects it refers to, and its
    methods can throw after having mutated.  Methods are therefore modelled
    as computations over a [Store] (the Plugin objects plus the fields of
    the runtime) whose outcome, returned or thrown, carries the store the
    call leaves behind. *)

From stdpp Require Import base option list gmap strings.

Open Scope string_scope.
Open Scope list_scope.

#[local] Set Warnings "-register-all".

(** ** JavaScript values *)

(** The values a configuration object can hold. *)
Inductive value : Type :=
  | VUndefined
  | VNull
  | VBool (b : bool)
  | VNum (n : Z)
  | VStr (s : string)
  | VObj (fields : gmap string value).

(** What a thrown exception carries.  [JsError] is [new Error(message)];
    the two others are raised by the language itself. *)
Inductive Error : Type :=
  | JsError (message : string)
  | ReferenceError (identifier : string)
  | TypeError (message : string).

(** ** Domain objects *)

(** A setup routine is only stored and handed on, never called here: it is
    identified by the path of the core module it comes from, or by a tag
    chosen by whoever supplies it. *)
Inductive Setup : Type :=
  | CoreModule (path : string)
  | SetupFn (tag : nat).

(** An entry [{ name, setup }] of the extension sequence. *)
Record Extension : Type := mkExtension {
  ext_name : string;
  ext_setup : Setup;
}.

(** [domain/command]: a name, aliases, nested sub-commands and a body. *)
Inductive Command : Type := mkCommand {
  cmd_name : string;
  cmd_aliases : list string;
  cmd_subcommands : list Command;
  cmd_run : nat;
}.

(** The raw descriptor given to [addCommand] (typed [any] in the source);
    only its [name] is read by the runtime. *)
Record RawCommand : Type := mkRawCommand {
  raw_name : string;
  raw_payload : nat;
}.

(** [domain/plugin]: the runtime reads [commands] and [extensions]. *)
Record Plugin : Type := mkPlugin {
  plugin_name : option string;
  plugin_directory : string;
  plugin_hidden : bool;
  commands : list Command;
  plugin_extensions : list Extension;
}.

(** What a field or an array slot of the runtime may refer to: nothing, a
    Plugin object of the store, or the runtime itself ([this]). *)
Inductive ref : Type :=
  | Null
  | PluginRef (l : nat)
  | RuntimeRef.

Global Instance ref_eq_dec : EqDecision ref.
Proof. solve_decision. Defined.

(** A key of an object: it is absent, or present with the value
    [undefined], or present with a value.  [Object.assign] copies a key
    that is present whatever its value, so the two first are not the
    same. *)
Inductive entry (A : Type) : Type :=
  | Absent
  | Undefined
  | Given (a : A).
Arguments Absent {A}.
Arguments Undefined {A}.
Arguments Given {A} a.

(** [object.key] and [object['key']]: the value read, [None] for
    [undefined], which is what an absent key reads as too. *)
Definition read {A} (e : entry A) : option A :=
  match e with Given a => Some a | _ => None end.

(** [{ key: v }] in an object literal: the key is present, with the value
    of [v], be it [undefined]. *)
Definition written {A} (v : option A) : entry A :=
  match v with Some a => Given a | None => Undefined end.

(** The options object of [addPlugin], [addPlugins] and
    [addDefaultPlugin], with the keys the runtime reads. *)
Record Options : Type := mkOptions {
  required : entry bool;
  name : entry string;
  hidden : entry bool;
  commandFilePattern : entry string;
  extensionFilePattern : entry string;
  preloadedCommands : entry (list RawCommand);
  matching : entry string;
}.

(** The empty options object [{}], the default of every [options] parameter. *)
Definition no_options : Options :=
  mkOptions Absent Absent Absent Absent Absent Absent Absent.

(** The object literal handed to [loadPluginFromDirectory]. *)
Record LoaderOptions : Type := mkLoaderOptions {
  lo_brand : option string;
  lo_hidden : option bool;
  lo_name : option string;
  lo_commandFilePattern : option string;
  lo_extensionFilePattern : option string;
  lo_preloadedCommands : option (list RawCommand);
}.

(** ** The runtime and the store *)

(** The fields of [class Runtime] ([run] is a function and is left out). *)
Record Runtime : Type := mkRuntime {
  brand : option string;
  plugins : list ref;
  extensions : list Extension;
  defaults : value;
  defaultPlugin : ref;
  config : gmap string value;
}.

(** The Plugin objects (addressed by their position) and the runtime. *)
Record Store : Type := mkStore {
  objects : list Plugin;
  this : Runtime;
}.

(** Field updates, written [this.f = v] in the source. *)
Definition set_plugins (v : list ref) (s : Store) : Store :=
  let r := this s in
  mkStore (objects s)
    (mkRuntime (brand r) v (extensions r) (defaults r) (defaultPlugin r) (config r)).

Definition set_extensions (v : list Extension) (s : Store) : Store :=
  let r := this s in
  mkStore (objects s)
    (mkRuntime (brand r) (plugins r) v (defaults r) (defaultPlugin r) (config r)).

Definition set_defaults (v : value) (s : Store) : Store :=
  let r := this s in
  mkStore (objects s)
    (mkRuntime (brand r) (plugins r) (extensions r) v (defaultPlugin r) (config r)).

Definition set_defaultPlugin (v : ref) (s : Store) : Store :=
  let r := this s in
  mkStore (objects s)
    (mkRuntime (brand r) (plugins r) (extensions r) (defaults r) v (config r)).

Definition set_config (v : gmap string value) (s : Store) : Store :=
  let r := this s in
  mkStore (objects s)
    (mkRuntime (brand r) (plugins r) (extensions r) (defaults r) (defaultPlugin r) v).

Definition set_objects (v : list Plugin) (s : Store) : Store :=
  mkStore v (this s).

Definition set_commands (v : list Command) (p : Plugin) : Plugin :=
  mkPlugin (plugin_name p) (plugin_directory p) (plugin_hidden p) v
    (plugin_extensions p).

(** ** Computations that may throw *)

(** A call either returns a value or throws; both leave a store behind, and
    what was mutated before a throw stays mutated. *)
Inductive Outcome (A : Type) : Type :=
  | Returned (a : A) (s : Store)
  | Thrown (e : Error) (s : Store).
Arguments Returned {A} a s.
Arguments Thrown {A} e s.

Definition store_of {A} (o : Outcome A) : Store :=
  match o with Returned _ s => s | Thrown _ s => s end.

Definition M (A : Type) : Type := Store -> Outcome A.

Definition ret {A} (a : A) : M A := fun s => Returned a s.

Definition throw {A} (e : Error) : M A := fun s => Thrown e s.

Definition bind {A B} (m : M A) (k : A -> M B) : M B :=
  fun s => match m s with
           | Returned a s' => k a s'
           | Thrown e s' => Thrown e s'
           end.

Definition get : M Store := fun s => Returned s s.

Definition update (f : Store -> Store) : M unit := fun s => Returned tt (f s).

(** The result of a collaborator: a thrown exception or a value. *)
Definition lift {A} (r : Error + A) : M A :=
  match r with inl e => throw e | inr a => ret a end.

Declare Scope js_scope.
Delimit Scope js_scope with js.
Notation "'let*' x := m 'in' k" := (bind m (fun x => k))
  (at level 10, x pattern, m at level 100, k at level 200) : js_scope.
Notation "m ;; k" := (bind m (fun _ => k))
  (at level 100, k at level 200, right associativity) : js_scope.
Open Scope js_scope.

(** [array.forEach(f)]: the callback's result is dropped, an exception
    leaves the loop. *)
Fixpoint forEach {A B} (l : list A) (f : A -> M B) : M unit :=
  match l with
  | [] => ret tt
  | x :: l' => f x ;; forEach l' f
  end.

(** ** JavaScript operators the class uses *)

(** Truthiness of an object reference: [!this.defaultPlugin]. *)
Definition truthy (r : ref) : bool :=
  match r with Null => false | _ => true end.

(** Truthiness of [options.required]. *)
Definition is_true (o : option bool) : bool :=
  match o with Some true => true | _ => false end.

(** ramda's [isNil]. *)
Definition isNil (r : ref) : bool :=
  match r with Null => true | _ => false end.

(** [v.key]: reading a property off [undefined] or [null] throws, a
    missing property or a primitive gives [undefined]. *)
Definition get_property (v : value) (key : string) : Error + value :=
  match v with
  | VUndefined => inl (TypeError ("Cannot read property '" +:+ key +:+ "' of undefined"))
  | VNull => inl (TypeError ("Cannot read property '" +:+ key +:+ "' of null"))
  | VObj fields => inr (default VUndefined (fields !! key))
  | _ => inr VUndefined
  end.

(** A key of [source] that is present, with whatever value, overrides the
    one of [target]. *)
Definition override {A} (target source : entry A) : entry A :=
  match source with Absent => target | _ => source end.

(** [Object.assign(target, source)] on options objects. *)
Definition Object_assign (target source : Options) : Options :=
  mkOptions
    (override (required target) (required source))
    (override (name target) (name source))
    (override (hidden target) (hidden source))
    (override (commandFilePattern target) (commandFilePattern source))
    (override (extensionFilePattern target) (extensionFilePattern source))
    (override (preloadedCommands target) (preloadedCommands source))
    (override (matching target) (matching source)).

(** ramda's [dissoc('matching', options)]. *)
Definition dissoc_matching (options : Options) : Options :=
  mkOptions (required options) (name options) (hidden options)
    (commandFilePattern options) (extensionFilePattern options)
    (preloadedCommands options) Absent.

(** ramda's [dissoc('defaults', config)]. *)
Definition dissoc_defaults (config : gmap string value) : gmap string value :=
  delete "defaults" config.

(** ** Collaborators *)

(** The functions [runtime.ts] imports from modules that are not part of
    the core ([utils/string-utils], [utils/filesystem-utils], [path], the
    three loaders), and the scope in which an identifier is looked up when
    no scope of [runtime.ts] declares it. *)
Class Host : Type := {
  isBlank : string -> bool;
  isDirectory : string -> bool;
  subdirectories : string -> bool -> option string -> bool -> list string;
  resolve : string -> string;
  loadPluginFromDirectory : string -> LoaderOptions -> Error + Plugin;
  loadConfig : option string -> value -> Error + option (gmap string value);
  loadCommandFromPreload : RawCommand -> Command;
  global_scope : string -> option value;
}.

(** Evaluating an identifier that [runtime.ts] does not declare: the
    global scope answers, or a [ReferenceError] is thrown. *)
Definition identifier `{Host} (x : string) : M value :=
  match global_scope x with
  | Some v => ret v
  | None => throw (ReferenceError x)
  end.

(** The Plugin a loader built is a new object: it gets the next free
    address of the store. *)
Definition new_object (p : Plugin) : M ref :=
  let* s := get in
  update (set_objects (objects s ++ [p])) ;;
  ret (PluginRef (length (objects s))).

(** [target.commands.unshift(command)]. The runtime has no [commands]
    property, so the call on it (or on nothing) is a [TypeError]. *)
Definition commands_unshift (target : ref) (command : Command) : M unit :=
  match target with
  | PluginRef l =>
      let* s := get in
      match objects s !! l with
      | Some p =>
          update (set_objects (<[l := set_commands (command :: commands p) p]> (objects s)))
      | None => throw (TypeError "Cannot read property 'commands' of undefined")
      end
  | RuntimeRef => throw (TypeError "Cannot read property 'unshift' of undefined")
  | Null => throw (TypeError "Cannot read property 'commands' of null")
  end.

(** ** Command resolution *)

(** The [parameters] of [findCommand]: the token array and the parsed
    options. *)
Record Parameters : Type := mkParameters {
  array : list string;
  options : gmap string value;
}.

(** Lines 179-180 of [runtime.ts]: the default plugin, then the plugins
    that are not the default one, the whole without nil entries. *)
Definition search_order (s : Store) : list ref :=
  let otherPlugins := filter (λ p, p ≠ defaultPlugin (this s)) (plugins (this s)) in
  filter (λ p, ¬ isNil p) (defaultPlugin (this s) :: otherPlugins).

Module RuntimeFindCommand.

(** Modelled from the spec: a token selects a command by its name or by
    one of its aliases, compared exactly (section 4.4, step 2). *)
Definition selects (token : string) (c : Command) : bool :=
  bool_decide (cmd_name c = token) || bool_decide (token ∈ cmd_aliases c).

(** Modelled from the spec: the root command of a plugin is the one
    without a name (section 4.4, edge cases). *)
Definition is_root (c : Command) : bool := bool_decide (cmd_name c = "").

(** Modelled from the spec: the walk of one command tree (section 4.4,
    steps 2, 3 and 6).  The next token is consumed at this level, the walk
    goes on below the command it selected while a nested match exists; the
    result is the deepest command reached and the tokens left over. *)
Fixpoint walk (level : list Command) (tokens : list string)
    : option (Command * list string) :=
  match tokens with
  | [] => None
  | token :: tokens' =>
      match List.find (selects token) level with
      | None => None
      | Some c =>
          match walk (cmd_subcommands c) tokens' with
          | Some deeper => Some deeper
          | None => Some (c, tokens')
          end
      end
  end.

(** Modelled from the spec: what one plugin answers.  With no token it is
    its root command if it has one, otherwise the deepest match of the
    walk. *)
Definition resolve_in (p : Plugin) (tokens : list string)
    : option (Command * list string) :=
  match tokens with
  | [] => (λ c, (c, [])) <$> List.find is_root (commands p)
  | _ => walk (commands p) tokens
  end.

(** Modelled from the spec: the first plugin of the search order that
    answers wins (section 4.4, step 4).  An entry that is not a Plugin
    object has no command tree and answers nothing. *)
Fixpoint first_match (objs : list Plugin) (order : list ref) (tokens : list string)
    : option (ref * Command * list string) :=
  match order with
  | [] => None
  | r :: order' =>
      let answer :=
        match r with
        | PluginRef l => p ← objs !! l; resolve_in p tokens
        | _ => None
        end in
      match answer with
      | Some (c, rest) => Some (r, c, rest)
      | None => first_match objs order' tokens
      end
  end.

(** Modelled from the spec: the resolver [findCommand(runtime, parameters)]
    that [runtime.ts] imports from [./runtime-find-command] is not among
    the sources.  It follows section 4.4 of the specification: the search
    order of step 1 (the one [runtime.ts] itself computes), a greedy
    depth-first walk per plugin (steps 2, 3 and 6, and the root command
    for an empty token array), the first plugin that matches (step 4),
    and nothing when none does (step 5). *)
Definition findCommand (s : Store) (parameters : Parameters)
    : option (ref * Command * list string) :=
  first_match (objects s) (search_order s) (array parameters).

End RuntimeFindCommand.

(** The object [{ plugin, command, array }] that [findCommand] returns. *)
Record Found : Type := mkFound {
  found_plugin : ref;
  found_command : Command;
  found_array : list string;
}.

(** ** The methods of [Runtime] *)

(** [addExtension(name, setup)] *)
Definition addExtension (name : string) (setup : Setup) : M ref :=
  let* s := get in
  update (set_extensions (extensions (this s) ++ [mkExtension name setup])) ;;
  ret RuntimeRef.

(** [addCoreExtensions()] *)
Definition addCoreExtensions : M unit :=
  addExtension "meta" (CoreModule "../core-extensions/meta-extension") ;;
  addExtension "strings" (CoreModule "../core-extensions/template-extension") ;;
  addExtension "print" (CoreModule "../core-extensions/print-extension") ;;
  addExtension "template" (CoreModule "../core-extensions/filesystem-extension") ;;
  addExtension "filesystem" (CoreModule "../core-extensions/semver-extension") ;;
  addExtension "semver" (CoreModule "../core-extensions/system-extension") ;;
  addExtension "system" (CoreModule "../core-extensions/prompt-extension") ;;
  addExtension "http" (CoreModule "../core-extensions/http-extension") ;;
  addExtension "prompt" (CoreModule "../core-extensions/strings-extension") ;;
  addExtension "patching" (CoreModule "../core-extensions/patching-extension") ;;
  ret tt.

(** [constructor(brand)]: the fields are initialised, then the core
    extensions are added. *)
Definition constructor (brand : option string) : M unit :=
  update (λ s, mkStore (objects s) (mkRuntime brand [] [] (VObj ∅) Null ∅)) ;;
  addCoreExtensions.

(** [new Runtime(brand)] where no Plugin object exists yet. *)
Definition new_Runtime (brand : option string) : Store :=
  store_of (constructor brand (mkStore [] (mkRuntime None [] [] VUndefined Null ∅))).

(** [create()] *)
Definition create : M ref := ret RuntimeRef.

Section Methods.
Context `{host : Host}.

(** [addCommand(command)] *)
Definition addCommand (command : RawCommand) : M ref :=
  let* s := get in
  if negb (truthy (defaultPlugin (this s))) then
    throw (JsError ("Can't add command " +:+ raw_name command +:+
                    " - no default plugin. You may have forgotten a src() on your runtime."))
  else
    let command := loadCommandFromPreload command in
    commands_unshift (defaultPlugin (this s)) command ;;
    ret RuntimeRef.

(** [addPlugin(directory, options)] *)
Definition addPlugin (directory : string) (options : Options) : M ref :=
  if negb (isDirectory directory) then
    if is_true (read (required options)) then
      throw (JsError ("Error: couldn't load plugin (not a directory): " +:+ directory))
    else
      ret RuntimeRef
  else
    let* s := get in
    let* loaded :=
      lift (loadPluginFromDirectory (resolve directory)
        {| lo_brand := brand (this s);
           lo_hidden := read (hidden options);
           lo_name := read (name options);
           lo_commandFilePattern := read (commandFilePattern options);
           lo_extensionFilePattern := read (extensionFilePattern options);
           lo_preloadedCommands := read (preloadedCommands options) |}) in
    let* plugin := new_object loaded in
    let* s := get in
    update (set_plugins (plugins (this s) ++ [plugin])) ;;
    forEach (plugin_extensions loaded)
      (λ extension, addExtension (ext_name extension) (ext_setup extension)) ;;
    ret RuntimeRef.

(** The options [addDefaultPlugin] hands to [addPlugin]:
    [Object.assign({ required: true, name: this.brand }, options)]. *)
Definition default_plugin_options (brand : option string) (options : Options) : Options :=
  Object_assign
    (mkOptions (Given true) (written brand) Absent Absent Absent Absent Absent)
    options.

(** [addDefaultPlugin(directory, options)] *)
Definition addDefaultPlugin (directory : string) (options : Options) : M ref :=
  let* s := get in
  let* plugin := addPlugin directory (default_plugin_options (brand (this s)) options) in
  update (set_defaultPlugin plugin) ;;
  let* s := get in
  let* defaultPlugin := identifier "defaultPlugin" in
  let* key := lift (get_property defaultPlugin "value") in
  let* loaded := lift (loadConfig (brand (this s)) key) in
  let config := default ∅ loaded in
  update (set_defaults (default VUndefined (config !! "defaults"))) ;;
  update (set_config (dissoc_defaults config)) ;;
  ret RuntimeRef.

(** [addPlugins(directory, options)] *)
Definition addPlugins (directory : string) (options : Options) : M ref :=
  if isBlank directory || negb (isDirectory directory) then ret RuntimeRef
  else
    let subdirs := subdirectories directory false (read (matching options)) true in
    forEach subdirs (λ dir, addPlugin dir (dissoc_matching options)) ;;
    ret RuntimeRef.

(** [findCommand(parameters)]: the method computes its own plugin list
    and then takes the answer of the imported resolver. *)
Definition findCommand (parameters : Parameters) (s : Store) : option Found :=
  let otherPlugins := filter (λ p, p ≠ defaultPlugin (this s)) (plugins (this s)) in
  let plugins := filter (λ p, ¬ isNil p) (defaultPlugin (this s) :: otherPlugins) in
  (fun '(targetPlugin, targetCommand, rest) => mkFound targetPlugin targetCommand rest)
    <$> RuntimeFindCommand.findCommand s parameters.

(** A call of one of the registration methods. *)
Inductive Call : Type :=
  | AddCommand (command : RawCommand)
  | AddExtension (name : string) (setup : Setup)
  | AddDefaultPlugin (directory : string) (options : Options)
  | AddPlugin (directory : string) (options : Options)
  | AddPlugins (directory : string) (options : Options).

Definition perform (c : Call) : M ref :=
  match c with
  | AddCommand command => addCommand command
  | AddExtension name setup => addExtension name setup
  | AddDefaultPlugin directory options => addDefaultPlugin directory options
  | AddPlugin directory options => addPlugin directory options
  | AddPlugins directory options => addPlugins directory options
  end.

(** A caller making the calls one after the other, going on after a call
    that threw: the store each call leaves behind is the next one's. *)
Definition after (calls : list Call) (s : Store) : Store :=
  foldl (λ s c, store_of (perform c s)) s calls.

End Methods.

(** [sub] occurs in [s]. *)
Definition includes (sub s : string) : Prop :=
  ∃ before behind, s = before +:+ sub +:+ behind.

(** The batch as the specification of [addPlugins] words it, to compare
    the method with: [addPlugin] is called on each directory in turn with
    the same options, and the first call that throws ends the batch. *)
Fixpoint addPlugin_each `{Host} (dirs : list string) (options : Options) (s : Store)
    : Outcome ref :=
  match dirs with
  | [] => Returned RuntimeRef s
  | dir :: dirs' =>
      match addPlugin dir options s with
      | Returned _ s' => addPlugin_each dirs' options s'
      | Thrown e s' => Thrown e s'
      end
  end.

(** The object literal [addPlugin] builds for the loader. *)
Definition loader_options (s : Store) (options : Options) : LoaderOptions :=
  {| lo_brand := brand (this s);
     lo_hidden := read (hidden options);
     lo_name := read (name options);
     lo_commandFilePattern := read (commandFilePattern options);
     lo_extensionFilePattern := read (extensionFilePattern options);
     lo_preloadedCommands := read (preloadedCommands options) |}.

(** ** A small installation to run the methods on *)

Module Installation.

(** An application in [/app] and three plugins below [/plugins], the
    second of which cannot be loaded. *)
Definition directories : list string :=
  ["/app"; "/plugins"; "/plugins/one"; "/plugins/bad"; "/plugins/two"].

Definition status (tag : nat) : Command := mkCommand "status" ["st"] [] tag.

Definition load (path : string) (o : LoaderOptions) : Error + Plugin :=
  if bool_decide (path = "/plugins/bad") then inl (JsError "cannot read /plugins/bad")
  else inr (mkPlugin (lo_name o) path (default false (lo_hidden o))
              [status (String.length path)]
              [mkExtension "print" (SetupFn (String.length path))]).

(** The configuration file of the application. *)
Definition app_config : gmap string value :=
  {[ "defaults" := VObj {[ "color" := VBool true ]}; "verbose" := VBool false ]}.

(** A host whose global scope has no [defaultPlugin], as node has none. *)
Definition node : Host := {|
  isBlank dir := bool_decide (dir = "");
  isDirectory dir := bool_decide (dir ∈ directories);
  subdirectories dir _ _ _ :=
    if bool_decide (dir = "/plugins")
    then ["/plugins/one"; "/plugins/bad"; "/plugins/two"] else [];
  resolve dir := dir;
  loadPluginFromDirectory := load;
  loadConfig _ _ := inr (Some app_config);
  loadCommandFromPreload raw := mkCommand (raw_name raw) [] [] (raw_payload raw);
  global_scope _ := None;
|}.

(** A host that defines a global [defaultPlugin] with a [value], so that
    line 111 evaluates; [loadConfig] finds a file for the brand [app]
    only. *)
Definition patched : Host := {|
  isBlank dir := bool_decide (dir = "");
  isDirectory dir := bool_decide (dir ∈ directories);
  subdirectories dir _ _ _ :=
    if bool_decide (dir = "/plugins")
    then ["/plugins/one"; "/plugins/two"] else [];
  resolve dir := dir;
  loadPluginFromDirectory := load;
  loadConfig brand _ :=
    inr (if bool_decide (brand = Some "app") then Some app_config else None);
  loadCommandFromPreload raw := mkCommand (raw_name raw) [] [] (raw_payload raw);
  global_scope x :=
    if bool_decide (x = "defaultPlugin") then Some (VObj {[ "value" := VStr "/app" ]})
    else None;
|}.

(** A runtime whose default plugin is the first of two plugins that both
    have a [status] command. *)
Definition two_plugins : Store :=
  mkStore
    [mkPlugin (Some "app") "/app" false [status 1] [];
     mkPlugin (Some "two") "/plugins/two" false [status 2] []]
    (mkRuntime (Some "app") [PluginRef 1; Null; PluginRef 0]
       (extensions (this (new_Runtime (Some "app")))) (VObj ∅) (PluginRef 0) ∅).

End Installation.

(** ** Auxiliary notions for the statements *)

(** The store after plugin [p] was loaded and registered: a new object, a
    new slot of [plugins] referring to it, and its extensions behind the
    ones already there. *)
Definition registered (p : Plugin) (s : Store) : Store :=
  mkStore (objects s ++ [p])
    (mkRuntime (brand (this s))
       (plugins (this s) ++ [PluginRef (length (objects s))])
       (extensions (this s) ++ plugin_extensions p)
       (defaults (this s)) (defaultPlugin (this s)) (config (this s))).

(** Both registries of [s'] start with those of [s]. *)
Definition append_only (s s' : Store) : Prop :=
  extensions (this s) `prefix_of` extensions (this s') ∧
  plugins (this s) `prefix_of` plugins (this s').

(** The ten names [addCoreExtensions] registers, in its order. *)
Definition core_names : list string :=
  ["meta"; "strings"; "print"; "template"; "filesystem";
   "semver"; "system"; "http"; "prompt"; "patching"].

(** The store after the plugins [ps] were loaded and registered one after
    the other. *)
Definition register_all (ps : list Plugin) (s : Store) : Store :=
  foldl (λ s p, registered p s) s ps.

(** The registry refers to the Plugin objects of the store and to nothing
    else: slot [i] refers to object [i]. *)
Definition tracked (s : Store) : Prop :=
  plugins (this s) = PluginRef <$> seq 0 (length (objects s)).

(** The calls that add the extensions [es] one by one. *)
Definition extension_calls `{Host} (es : list Extension) : list Call :=
  (λ e, AddExtension (ext_name e) (ext_setup e)) <$> es.

Module Scenarios.

(** A host like [Installation.patched] whose configuration file cannot be
    read: [loadConfig] throws. *)
Definition unreadable : Host := {|
  isBlank dir := bool_decide (dir = "");
  isDirectory dir := bool_decide (dir ∈ Installation.directories);
  subdirectories dir _ _ _ :=
    if bool_decide (dir = "/plugins")
    then ["/plugins/one"; "/plugins/README.md"; "/plugins/two"; "/plugins/one"] else [];
  resolve dir := dir;
  loadPluginFromDirectory := Installation.load;
  loadConfig _ _ := inl (JsError "cannot parse /app/app.toml");
  loadCommandFromPreload raw := mkCommand (raw_name raw) [] [] (raw_payload raw);
  global_scope x :=
    if bool_decide (x = "defaultPlugin") then Some (VObj {[ "value" := VStr "/app" ]})
    else None;
|}.

(** The plugin [Installation.load] builds for [path] when no name and no
    [hidden] flag are given. *)
Definition plugin_at (path : string) : Plugin :=
  mkPlugin None path false [Installation.status (String.length path)]
    [mkExtension "print" (SetupFn (String.length path))].

End Scenarios.

(** * Properties *)

(** ** The monad and the registries *)

Section Registry.
Context `{host : Host}.

Lemma set_extensions_same s :
  set_extensions (extensions (this s) ++ []) s = s.
Proof. rewrite app_nil_r. by destruct s as [? []]. Qed.

Lemma addExtension_returns name setup s :
  addExtension name setup s =
  Returned RuntimeRef
    (set_extensions (extensions (this s) ++ [mkExtension name setup]) s).
Proof. reflexivity. Qed.

(** Registering the extensions of a plugin appends them as they stand. *)
Lemma forEach_addExtension exts s :
  forEach exts (λ e, addExtension (ext_name e) (ext_setup e)) s =
  Returned tt (set_extensions (extensions (this s) ++ exts) s).
Proof.
  revert s. induction exts as [|[n f] exts IH]; intros s.
  - by rewrite set_extensions_same.
  - cbn [forEach]. unfold bind at 1. rewrite addExtension_returns, IH.
    unfold set_extensions; cbn. by rewrite <- app_assoc.
Qed.

(** What [addPlugin] does, case by case. *)
Lemma addPlugin_cases directory options s :
  addPlugin directory options s =
  if isDirectory directory then
    match loadPluginFromDirectory (resolve directory) (loader_options s options) with
    | inl e => Thrown e s
    | inr p => Returned RuntimeRef (registered p s)
    end
  else if is_true (read (required options)) then
    Thrown (JsError ("Error: couldn't load plugin (not a directory): " +:+ directory)) s
  else Returned RuntimeRef s.
Proof.
  unfold addPlugin. destruct (isDirectory directory); cbn [negb].
  - unfold bind at 1, get. unfold bind at 1. fold (loader_options s options).
    destruct (loadPluginFromDirectory _ _) as [e|p]; [done|].
    cbn. unfold bind. rewrite forEach_addExtension. by destruct s as [? []].
  - by destruct (is_true (read (required options))).
Qed.

(** [addPlugin] only ever returns the runtime. *)
Lemma addPlugin_returns_this directory options s r s' :
  addPlugin directory options s = Returned r s' → r = RuntimeRef.
Proof.
  rewrite addPlugin_cases. repeat case_match; congruence.
Qed.

(** What [addDefaultPlugin] does, step by step. *)
Lemma addDefaultPlugin_cases directory options s :
  addDefaultPlugin directory options s =
  match addPlugin directory (default_plugin_options (brand (this s)) options) s with
  | Thrown e s' => Thrown e s'
  | Returned plugin s1 =>
      let s2 := set_defaultPlugin plugin s1 in
      match global_scope "defaultPlugin" with
      | None => Thrown (ReferenceError "defaultPlugin") s2
      | Some g =>
          match get_property g "value" with
          | inl e => Thrown e s2
          | inr key =>
              match loadConfig (brand (this s2)) key with
              | inl e => Thrown e s2
              | inr loaded =>
                  let config := default ∅ loaded in
                  Returned RuntimeRef
                    (set_config (dissoc_defaults config)
                       (set_defaults (default VUndefined (config !! "defaults")) s2))
              end
          end
      end
  end.
Proof.
  unfold addDefaultPlugin, bind, get, update, identifier, lift, ret, throw.
  destruct (addPlugin _ _ s) as [plugin s1|e s']; [|done].
  destruct (global_scope "defaultPlugin") as [g|]; [|done].
  destruct (get_property g "value") as [e|key]; [done|].
  by destruct (loadConfig _ key) as [e|loaded].
Qed.

End Registry.

Lemma append_empty_r (s : string) : s +:+ "" = s.
Proof.
  induction s as [|a s IH]; [done|].
  change (String a (s +:+ "") = String a s). by rewrite IH.
Qed.

Lemma includes_last (before sub : string) : includes sub (before +:+ sub).
Proof. exists before, "". by rewrite append_empty_r. Qed.

Lemma includes_middle (before sub behind : string) :
  includes sub (before +:+ sub +:+ behind).
Proof. by exists before, behind. Qed.

(** ** Construction *)

(** C10: right after construction the extension sequence holds exactly the
    ten core extensions, named meta, strings, print, template, filesystem,
    semver, system, http, prompt, patching in this order; no plugin is
    registered, [defaultPlugin] is null, [defaults] and [config] are empty
    objects. *)
Theorem constructor_initial_state (brand0 : option string) :
  let s := new_Runtime brand0 in
  ext_name <$> extensions (this s) =
    ["meta"; "strings"; "print"; "template"; "filesystem";
     "semver"; "system"; "http"; "prompt"; "patching"] ∧
  length (extensions (this s)) = 10 ∧
  plugins (this s) = [] ∧
  defaultPlugin (this s) = Null ∧
  defaults (this s) = VObj ∅ ∧
  config (this s) = ∅ ∧
  brand (this s) = brand0.
Proof. repeat split. Qed.

(** ** Registering plugins *)

(** C4: when [path] is not a directory, [addPlugin] with [required: true]
    throws an error whose message includes the path; with [required] false
    or absent it returns the runtime and the store is what it was, so the
    plugin registry and the extension sequence are unchanged. *)
Theorem addPlugin_not_a_directory `{Host} (path : string) (options : Options) (s : Store) :
  isDirectory path = false →
  (required options = Given true →
     ∃ message, addPlugin path options s = Thrown (JsError message) s ∧
                includes path message) ∧
  (required options ≠ Given true →
     addPlugin path options s = Returned RuntimeRef s ∧
     length (plugins (this (store_of (addPlugin path options s)))) =
       length (plugins (this s)) ∧
     extensions (this (store_of (addPlugin path options s))) = extensions (this s)).
Proof.
  intros Hdir. rewrite addPlugin_cases, Hdir. split.
  - intros ->. eexists. split; [reflexivity|]. apply includes_last.
  - intros Hreq.
    assert (is_true (read (required options)) = false) as ->; [|done].
    destruct (required options) as [| |[]]; done.
Qed.

Lemma addPlugin_not_a_directory_witness :
  (∃ message,
     @addPlugin Installation.node "/nonexistent"
       (mkOptions (Given true) Absent Absent Absent Absent Absent Absent)
       (new_Runtime (Some "app"))
     = Thrown (JsError message) (new_Runtime (Some "app")) ∧
     includes "/nonexistent" message) ∧
  @addPlugin Installation.node "/nonexistent" no_options (new_Runtime (Some "app"))
  = Returned RuntimeRef (new_Runtime (Some "app")).
Proof.
  split.
  - apply (@addPlugin_not_a_directory Installation.node "/nonexistent"
             (mkOptions (Given true) Absent Absent Absent Absent Absent Absent)
             (new_Runtime (Some "app"))); reflexivity.
  - apply (@addPlugin_not_a_directory Installation.node "/nonexistent"
             no_options (new_Runtime (Some "app"))); [reflexivity|].
    simpl. discriminate.
Defined.

(** C5, as the code has it: the options of the caller win over both
    defaults.  [addDefaultPlugin] is the call of [addPlugin] with the
    options written out below, followed by lines 108 to 115: [required] is
    the caller's whenever the caller's options have the key, [false] and
    [undefined] included, and [true] only when they have not; [name] is the
    caller's whenever the options have the key and the brand only when they
    have not; the other keys are the caller's.  An exception of that call
    is the exception of [addDefaultPlugin]. *)
Theorem addDefaultPlugin_passes_caller_options `{Host}
    (directory : string) (options : Options) (s : Store) :
  let merged :=
    {| required := match required options with Absent => Given true | given => given end;
       name := match name options with
               | Absent => written (brand (this s))
               | given => given
               end;
       hidden := hidden options;
       commandFilePattern := commandFilePattern options;
       extensionFilePattern := extensionFilePattern options;
       preloadedCommands := preloadedCommands options;
       matching := matching options |} in
  addDefaultPlugin directory options s =
  match addPlugin directory merged s with
  | Thrown e s' => Thrown e s'
  | Returned plugin s1 =>
      let s2 := set_defaultPlugin plugin s1 in
      match global_scope "defaultPlugin" with
      | None => Thrown (ReferenceError "defaultPlugin") s2
      | Some g =>
          match get_property g "value" with
          | inl e => Thrown e s2
          | inr key =>
              match loadConfig (brand (this s2)) key with
              | inl e => Thrown e s2
              | inr loaded =>
                  Returned RuntimeRef
                    (set_config (dissoc_defaults (default ∅ loaded))
                       (set_defaults
                          (default VUndefined (default ∅ loaded !! "defaults")) s2))
              end
          end
      end
  end.
Proof.
  cbn zeta. rewrite addDefaultPlugin_cases.
  replace (default_plugin_options (brand (this s)) options)
    with {| required := match required options with Absent => Given true | given => given end;
            name := match name options with
                    | Absent => written (brand (this s))
                    | given => given
                    end;
            hidden := hidden options;
            commandFilePattern := commandFilePattern options;
            extensionFilePattern := extensionFilePattern options;
            preloadedCommands := preloadedCommands options;
            matching := matching options |}; [done|].
  destruct options as [r n h c e pc m].
  unfold default_plugin_options, Object_assign, override. cbn.
  destruct r, n, h, c, e, pc, m; reflexivity.
Qed.

(** C5 fails as stated: a caller passing [required: false] gets
    [required: false] through to [addPlugin].  Called with [required: true]
    on a missing directory [addPlugin] throws and nothing happens; called
    as [addDefaultPlugin] calls it, it returns, and [addDefaultPlugin] goes
    on to set [defaultPlugin] and to line 111. *)
Lemma required_is_not_forced :
  let options := mkOptions (Given false) Absent Absent Absent Absent Absent Absent in
  let s := new_Runtime (Some "app") in
  required (default_plugin_options (Some "app") options) ≠ Given true ∧
  @addPlugin Installation.node "/nowhere"
    (mkOptions (Given true) (Given "app") Absent Absent Absent Absent Absent) s
    = Thrown (JsError "Error: couldn't load plugin (not a directory): /nowhere") s ∧
  @addDefaultPlugin Installation.node "/nowhere" options s
    = Thrown (ReferenceError "defaultPlugin") (set_defaultPlugin RuntimeRef s).
Proof. cbn zeta. split; [discriminate|]. split; reflexivity. Qed.

(** ** Registering commands *)

(** [addCommand] taken alone, on any store: when [defaultPlugin] is null
    it throws an error whose message includes the name of the command;
    when [defaultPlugin] refers to a Plugin object the descriptor goes
    through the preloader and the resulting command is put at index 0 of
    the command sequence of that plugin, before the commands that were
    there. *)
Theorem addCommand_spec `{Host} (command : RawCommand) (s : Store) :
  (defaultPlugin (this s) = Null →
     ∃ message, addCommand command s = Thrown (JsError message) s ∧
                includes (raw_name command) message) ∧
  (∀ l p, defaultPlugin (this s) = PluginRef l → objects s !! l = Some p →
     ∃ p', addCommand command s =
             Returned RuntimeRef (set_objects (<[l := p']> (objects s)) s) ∧
           <[l := p']> (objects s) !! l = Some p' ∧
           commands p' = loadCommandFromPreload command :: commands p ∧
           commands p' !! 0 = Some (loadCommandFromPreload command) ∧
           ∀ i, commands p' !! S i = commands p !! i).
Proof.
  split.
  - intros Hnull. unfold addCommand, bind, get. rewrite Hnull. cbn.
    eexists. split; [reflexivity|]. apply includes_middle.
  - intros l p Hdefault Hp.
    exists (set_commands (loadCommandFromPreload command :: commands p) p).
    split; [|split; [|done]].
    + unfold addCommand, bind, get. rewrite Hdefault. cbn.
      unfold bind, get. by rewrite Hp.
    + apply list_lookup_insert_eq. by eapply lookup_lt_Some.
Qed.

Lemma addCommand_spec_witness :
  (∃ message,
     @addCommand Installation.node (mkRawCommand "build" 7) (new_Runtime (Some "app"))
     = Thrown (JsError message) (new_Runtime (Some "app")) ∧
     includes "build" message) ∧
  (∃ p',
     @addCommand Installation.node (mkRawCommand "build" 7) Installation.two_plugins
     = Returned RuntimeRef
         (set_objects (<[0 := p']> (objects Installation.two_plugins))
            Installation.two_plugins) ∧
     commands p' = [mkCommand "build" [] [] 7; Installation.status 1]).
Proof.
  split.
  - apply (@addCommand_spec Installation.node (mkRawCommand "build" 7)
             (new_Runtime (Some "app"))). reflexivity.
  - destruct (proj2 (@addCommand_spec Installation.node (mkRawCommand "build" 7)
                       Installation.two_plugins)
                0 (mkPlugin (Some "app") "/app" false [Installation.status 1] [])
                eq_refl eq_refl) as (p' & Hrun & _ & Hcommands & _).
    exists p'. split; [exact Hrun | exact Hcommands].
Defined.

(** ** The default plugin *)

(** [addPlugin] leaves the other fields of the runtime alone. *)
Lemma addPlugin_frame `{Host} directory options s :
  let s' := store_of (addPlugin directory options s) in
  brand (this s') = brand (this s) ∧
  defaults (this s') = defaults (this s) ∧
  defaultPlugin (this s') = defaultPlugin (this s) ∧
  config (this s') = config (this s).
Proof. cbn zeta. rewrite addPlugin_cases. repeat case_match; done. Qed.

(** A call of [addPlugin] that throws has changed nothing. *)
Lemma addPlugin_thrown `{Host} directory options s e s' :
  addPlugin directory options s = Thrown e s' → s' = s.
Proof. rewrite addPlugin_cases. repeat case_match; congruence. Qed.

(** Whatever the host and the arguments, [addDefaultPlugin] either leaves
    the store as it was ([addPlugin] threw) or makes [defaultPlugin] refer
    to the runtime itself. *)
Lemma addDefaultPlugin_never_a_plugin `{Host} directory options s :
  let s' := store_of (addDefaultPlugin directory options s) in
  s' = s ∨ defaultPlugin (this s') = RuntimeRef.
Proof.
  cbn zeta. rewrite addDefaultPlugin_cases.
  destruct (addPlugin _ _ s) as [plugin s1|e s'] eqn:Hadd.
  - right. apply addPlugin_returns_this in Hadd as ->.
    cbn zeta. repeat case_match; done.
  - left. by apply addPlugin_thrown in Hadd.
Qed.

(** C2 does not hold of the code: [addPlugin] returns the runtime, so
    that is what [addDefaultPlugin] stores in [defaultPlugin], while the
    plugin it loaded sits in the registry.  Under node the call then throws
    at line 111, before any configuration is loaded; on a host where that
    line evaluates the call returns, with [defaultPlugin] still the
    runtime. *)
Example addDefaultPlugin_default_is_the_runtime :
  let s0 := new_Runtime (Some "app") in
  let s := store_of (@addDefaultPlugin Installation.node "/app" no_options s0) in
  @addDefaultPlugin Installation.node "/app" no_options s0
    = Thrown (ReferenceError "defaultPlugin") s ∧
  plugins (this s) = [PluginRef 0] ∧
  defaultPlugin (this s) = RuntimeRef ∧
  defaults (this s) = VObj ∅ ∧ config (this s) = ∅ ∧
  ∃ s', @addDefaultPlugin Installation.patched "/app" no_options s0
          = Returned RuntimeRef s' ∧
        plugins (this s') = [PluginRef 0] ∧
        defaultPlugin (this s') = RuntimeRef.
Proof.
  cbn zeta. do 5 (split; [reflexivity|]).
  eexists. split; [vm_compute; reflexivity|]. split; reflexivity.
Qed.

(** Lines 112 and 113 on a host where line 111 evaluates: when the call
    gets as far as loading the configuration and the loader returns,
    [defaults] is the value of the [defaults] key of what was loaded, and
    [undefined] when the key is absent or nothing was loaded; [config] is
    what was loaded without the [defaults] key. *)
Theorem addDefaultPlugin_splits_config `{Host}
    (directory : string) (options : Options) (s s1 : Store) (plugin : ref)
    (g key : value) (loaded : option (gmap string value)) :
  addPlugin directory (default_plugin_options (brand (this s)) options) s
    = Returned plugin s1 →
  global_scope "defaultPlugin" = Some g →
  get_property g "value" = inr key →
  loadConfig (brand (this s)) key = inr loaded →
  ∃ s', addDefaultPlugin directory options s = Returned RuntimeRef s' ∧
        defaults (this s') = default VUndefined (default ∅ loaded !! "defaults") ∧
        config (this s') = delete "defaults" (default ∅ loaded) ∧
        config (this s') !! "defaults" = None ∧
        ∀ k, k ≠ "defaults" → config (this s') !! k = default ∅ loaded !! k.
Proof.
  intros Hadd Hg Hkey Hload.
  pose proof (addPlugin_frame directory
                (default_plugin_options (brand (this s)) options) s) as Hframe.
  rewrite Hadd in Hframe. cbn in Hframe. destruct Hframe as (Hbrand & _).
  rewrite addDefaultPlugin_cases, Hadd. cbn zeta. rewrite Hg, Hkey.
  replace (brand (this (set_defaultPlugin plugin s1))) with (brand (this s))
    by (by rewrite <- Hbrand).
  rewrite Hload. eexists. split; [reflexivity|]. cbn.
  unfold dissoc_defaults. repeat split.
  - apply lookup_delete_eq.
  - intros k Hk. by apply lookup_delete_ne.
Qed.

Lemma addDefaultPlugin_splits_config_witness :
  ∃ s', @addDefaultPlugin Installation.patched "/app" no_options (new_Runtime (Some "app"))
          = Returned RuntimeRef s' ∧
        defaults (this s') = VObj {[ "color" := VBool true ]} ∧
        config (this s') = {[ "verbose" := VBool false ]}.
Proof.
  destruct (@addDefaultPlugin_splits_config Installation.patched "/app" no_options
              (new_Runtime (Some "app"))
              (registered
                 (mkPlugin (Some "app") "/app" false
                    [Installation.status 4] [mkExtension "print" (SetupFn 4)])
                 (new_Runtime (Some "app")))
              RuntimeRef (VObj {[ "value" := VStr "/app" ]}) (VStr "/app")
              (Some Installation.app_config)
              eq_refl eq_refl eq_refl eq_refl)
    as (s' & Hrun & Hdefaults & Hconfig & _).
  exists s'. split; [exact Hrun|]. split; [exact Hdefaults|].
  rewrite Hconfig. reflexivity.
Defined.

(** On such a host, when nothing is loaded, [defaults] is [undefined] and
    not an empty object. *)
Lemma defaults_undefined_when_nothing_loaded :
  defaults (this (store_of
    (@addDefaultPlugin Installation.patched "/app" no_options (new_Runtime (Some "other")))))
  ≠ VObj ∅.
Proof. discriminate. Qed.

(** ** Batches of plugins *)

(** The loop of [addPlugins] is the batch written out. *)
Lemma forEach_addPlugin `{Host} (dirs : list string) (options : Options) (s : Store) :
  (forEach dirs (λ dir, addPlugin dir options) ;; ret RuntimeRef) s =
  addPlugin_each dirs options s.
Proof.
  revert s. induction dirs as [|dir dirs IH]; intros s; [done|].
  cbn [forEach addPlugin_each]. unfold bind in *.
  destruct (addPlugin dir options s) as [r s'|e s']; [|done].
  apply IH.
Qed.

(** A batch in two parts: the second part starts where the first ends,
    unless the first part threw. *)
Lemma addPlugin_each_app `{Host} (before behind : list string) options s :
  addPlugin_each (before ++ behind) options s =
  match addPlugin_each before options s with
  | Returned _ s1 => addPlugin_each behind options s1
  | Thrown e s' => Thrown e s'
  end.
Proof.
  revert s. induction before as [|dir before IH]; intros s; [done|].
  cbn [app addPlugin_each]. by destruct (addPlugin dir options s).
Qed.

(** What [addPlugins] does: nothing, or the batch over the subdirectories. *)
Lemma addPlugins_cases `{Host} (directory : string) (options : Options) (s : Store) :
  addPlugins directory options s =
  if isBlank directory || negb (isDirectory directory) then Returned RuntimeRef s
  else addPlugin_each (subdirectories directory false (read (matching options)) true)
         (dissoc_matching options) s.
Proof.
  unfold addPlugins. destruct (isBlank directory || negb (isDirectory directory)); [done|].
  apply forEach_addPlugin.
Qed.

Global Instance append_only_preorder : PreOrder append_only.
Proof.
  split.
  - by intros s.
  - intros s1 s2 s3 [He12 Hp12] [He23 Hp23]. split; by etrans.
Qed.

(** [addPlugin] only appends to the registries. *)
Lemma addPlugin_append_only `{Host} directory options s :
  append_only s (store_of (addPlugin directory options s)).
Proof.
  rewrite addPlugin_cases. repeat case_match; try reflexivity.
  split; cbn; by apply prefix_app_r.
Qed.

Lemma addPlugin_each_append_only `{Host} dirs options s :
  append_only s (store_of (addPlugin_each dirs options s)).
Proof.
  revert s. induction dirs as [|dir dirs IH]; intros s; [reflexivity|].
  cbn [addPlugin_each].
  pose proof (addPlugin_append_only dir options s) as Hstep.
  destruct (addPlugin dir options s) as [r s'|e s']; [|done].
  etrans; [exact Hstep | apply IH].
Qed.

(** C9: on a blank directory or on something that is no directory
    [addPlugins] returns the runtime and changes nothing; otherwise it asks
    for the immediate subdirectories (the recursive flag is [false]) that
    match the [matching] option, and calls [addPlugin] on each of them, in
    that order, with the options less their [matching] key. *)
Theorem addPlugins_spec `{Host} (directory : string) (options : Options) (s : Store) :
  (isBlank directory = true ∨ isDirectory directory = false →
     addPlugins directory options s = Returned RuntimeRef s) ∧
  (isBlank directory = false → isDirectory directory = true →
     addPlugins directory options s =
     addPlugin_each (subdirectories directory false (read (matching options)) true)
       (dissoc_matching options) s) ∧
  matching (dissoc_matching options) = Absent ∧
  dissoc_matching options =
    mkOptions (required options) (name options) (hidden options)
      (commandFilePattern options) (extensionFilePattern options)
      (preloadedCommands options) Absent.
Proof.
  rewrite addPlugins_cases. split; [|split; [|done]].
  - intros [-> | ->]; [done|]. by rewrite orb_true_r.
  - by intros -> ->.
Qed.

Lemma addPlugins_spec_witness :
  @addPlugins Installation.node "" no_options (new_Runtime (Some "app"))
    = Returned RuntimeRef (new_Runtime (Some "app")) ∧
  @addPlugins Installation.node "/nowhere" no_options (new_Runtime (Some "app"))
    = Returned RuntimeRef (new_Runtime (Some "app")) ∧
  @addPlugins Installation.patched "/plugins"
      (mkOptions Absent Absent Absent Absent Absent Absent (Given "*"))
      (new_Runtime (Some "app"))
    = @addPlugin_each Installation.patched ["/plugins/one"; "/plugins/two"] no_options
        (new_Runtime (Some "app")).
Proof.
  split; [|split].
  - apply (proj1 (@addPlugins_spec Installation.node "" no_options
                    (new_Runtime (Some "app")))).
    left. reflexivity.
  - apply (proj1 (@addPlugins_spec Installation.node "/nowhere" no_options
                    (new_Runtime (Some "app")))).
    right. reflexivity.
  - apply (proj1 (proj2 (@addPlugins_spec Installation.patched "/plugins"
             (mkOptions Absent Absent Absent Absent Absent Absent (Given "*"))
             (new_Runtime (Some "app")))) eq_refl eq_refl).
Defined.

(** C8: when the loader throws, [addPlugin] throws the same and the store
    is what it was before the call, so neither the plugin nor any of its
    extensions is registered; in a batch the exception ends [addPlugins] in
    the store the earlier subdirectories left, whose registries start with
    those the batch began with: what was registered stays registered. *)
Theorem loader_failure_leaves_registry `{Host} :
  (∀ directory options s e,
     isDirectory directory = true →
     loadPluginFromDirectory (resolve directory) (loader_options s options) = inl e →
     addPlugin directory options s = Thrown e s) ∧
  (∀ directory options s (before : list string) bad behind r s1 e,
     isBlank directory = false →
     isDirectory directory = true →
     subdirectories directory false (read (matching options)) true
       = (before ++ bad :: behind)%list →
     addPlugin_each before (dissoc_matching options) s = Returned r s1 →
     isDirectory bad = true →
     loadPluginFromDirectory (resolve bad) (loader_options s1 (dissoc_matching options))
       = inl e →
     addPlugins directory options s = Thrown e s1 ∧ append_only s s1).
Proof.
  assert (∀ directory options s e,
     isDirectory directory = true →
     loadPluginFromDirectory (resolve directory) (loader_options s options) = inl e →
     addPlugin directory options s = Thrown e s) as Hone.
  { intros directory options s e Hdir Hload.
    by rewrite addPlugin_cases, Hdir, Hload. }
  split; [exact Hone|].
  intros directory options s before bad behind r s1 e
    Hblank Hdir Hsub Hbefore Hbad Hload.
  split.
  - rewrite addPlugins_cases, Hblank, Hdir, Hsub, addPlugin_each_app, Hbefore.
    cbn [orb negb addPlugin_each]. by rewrite (Hone bad _ s1 e).
  - pose proof (addPlugin_each_append_only before (dissoc_matching options) s) as Hgrow.
    by rewrite Hbefore in Hgrow.
Qed.

Lemma loader_failure_leaves_registry_witness :
  let s := new_Runtime (Some "app") in
  let one :=
    mkPlugin None "/plugins/one" false [Installation.status 12]
      [mkExtension "print" (SetupFn 12)] in
  @addPlugin Installation.node "/plugins/bad" no_options s
    = Thrown (JsError "cannot read /plugins/bad") s ∧
  @addPlugins Installation.node "/plugins" no_options s
    = Thrown (JsError "cannot read /plugins/bad") (registered one s) ∧
  append_only s (registered one s).
Proof.
  cbn zeta. split.
  - apply (proj1 (@loader_failure_leaves_registry Installation.node)
             "/plugins/bad" no_options (new_Runtime (Some "app"))
             (JsError "cannot read /plugins/bad") eq_refl eq_refl).
  - apply (proj2 (@loader_failure_leaves_registry Installation.node)
             "/plugins" no_options (new_Runtime (Some "app"))
             ["/plugins/one"] "/plugins/bad" ["/plugins/two"] RuntimeRef
             (registered
                (mkPlugin None "/plugins/one" false [Installation.status 12]
                   [mkExtension "print" (SetupFn 12)])
                (new_Runtime (Some "app")))
             (JsError "cannot read /plugins/bad")
             eq_refl eq_refl eq_refl eq_refl eq_refl eq_refl).
Defined.

(** ** The extension registry *)

Section AppendOnly.
Context `{host : Host}.

(** [addCommand] does not touch the fields of the runtime. *)
Lemma addCommand_this command s :
  this (store_of (addCommand command s)) = this s.
Proof.
  unfold addCommand, bind, get.
  destruct (truthy (defaultPlugin (this s))); [|done]. cbn [negb].
  unfold commands_unshift.
  destruct (defaultPlugin (this s)) as [|l|]; try done.
  unfold bind, get. by destruct (objects s !! l).
Qed.

Lemma addDefaultPlugin_append_only directory options s :
  append_only s (store_of (addDefaultPlugin directory options s)).
Proof.
  rewrite addDefaultPlugin_cases.
  pose proof (addPlugin_append_only directory
                (default_plugin_options (brand (this s)) options) s) as Hadd.
  destruct (addPlugin _ _ s) as [plugin s1|e s']; [|done].
  cbn zeta. repeat case_match; exact Hadd.
Qed.

Lemma addPlugins_append_only directory options s :
  append_only s (store_of (addPlugins directory options s)).
Proof.
  rewrite addPlugins_cases. case_match; [reflexivity|].
  apply addPlugin_each_append_only.
Qed.

(** No call takes anything out of a registry or puts anything in front. *)
Lemma perform_append_only c s : append_only s (store_of (perform c s)).
Proof.
  destruct c as [command|n f|directory options|directory options|directory options];
    cbn [perform].
  - unfold append_only. by rewrite addCommand_this.
  - split; cbn; [by apply prefix_app_r | done].
  - apply addDefaultPlugin_append_only.
  - apply addPlugin_append_only.
  - apply addPlugins_append_only.
Qed.

Lemma after_append_only calls s : append_only s (after calls s).
Proof.
  revert s. induction calls as [|c calls IH]; intros s; [reflexivity|].
  cbn. etrans; [apply perform_append_only | apply IH].
Qed.

End AppendOnly.

(** C7: the extension sequence only grows at its end.  [addExtension]
    appends its entry whatever the names already there; a plugin that loads
    has its extensions appended in their own order; no registration call
    removes or reorders anything; and since the constructor has put the ten
    built-ins first, they keep the ten first places after any calls, so
    that an extension added later under the name of a built-in stands
    behind it. *)
Theorem extension_registry_append_only `{Host} :
  (∀ name setup s,
     addExtension name setup s =
     Returned RuntimeRef
       (set_extensions (extensions (this s) ++ [mkExtension name setup]) s)) ∧
  (∀ directory options s p,
     isDirectory directory = true →
     loadPluginFromDirectory (resolve directory) (loader_options s options) = inr p →
     extensions (this (store_of (addPlugin directory options s))) =
       extensions (this s) ++ plugin_extensions p) ∧
  (∀ c s, extensions (this s) `prefix_of` extensions (this (store_of (perform c s)))) ∧
  (∀ brand0 calls,
     ∃ added,
       extensions (this (after calls (new_Runtime brand0))) =
         extensions (this (new_Runtime brand0)) ++ added ∧
       ext_name <$> take 10 (extensions (this (after calls (new_Runtime brand0)))) =
         core_names).
Proof.
  split; [done|]. split; [|split].
  - intros directory options s p Hdir Hload.
    by rewrite addPlugin_cases, Hdir, Hload.
  - intros c s. apply perform_append_only.
  - intros brand0 calls.
    destruct (after_append_only calls (new_Runtime brand0)) as [[added Hadded] _].
    exists added. split; [exact Hadded|]. by rewrite Hadded.
Qed.

Lemma extension_registry_append_only_witness :
  extensions (this (store_of
    (@addPlugin Installation.node "/plugins/one" no_options (new_Runtime (Some "app")))))
  = extensions (this (new_Runtime (Some "app"))) ++ [mkExtension "print" (SetupFn 12)].
Proof.
  apply (proj1 (proj2 (@extension_registry_append_only Installation.node))
           "/plugins/one" no_options (new_Runtime (Some "app"))
           (mkPlugin None "/plugins/one" false [Installation.status 12]
              [mkExtension "print" (SetupFn 12)])
           eq_refl eq_refl).
Defined.

(** ** The default plugin, again *)

(** Through the registration methods alone [defaultPlugin] never comes to
    refer to a Plugin object: it stays null or becomes the runtime. *)
Lemma defaultPlugin_after_calls `{Host} (brand0 : option string) (calls : list Call) :
  defaultPlugin (this (after calls (new_Runtime brand0))) = Null ∨
  defaultPlugin (this (after calls (new_Runtime brand0))) = RuntimeRef.
Proof.
  assert (∀ s, (defaultPlugin (this s) = Null ∨ defaultPlugin (this s) = RuntimeRef) →
               defaultPlugin (this (after calls s)) = Null ∨
               defaultPlugin (this (after calls s)) = RuntimeRef) as Hinv.
  { induction calls as [|c calls IH]; intros s Hs; [done|].
    cbn. apply IH.
    destruct c as [command|n f|directory options|directory options|directory options];
      cbn [perform].
    - by rewrite addCommand_this.
    - done.
    - destruct (addDefaultPlugin_never_a_plugin directory options s) as [-> | ->]; auto.
    - by destruct (addPlugin_frame directory options s) as (_ & _ & -> & _).
    - rewrite addPlugins_cases. case_match; [done|].
      generalize (subdirectories directory false (read (matching options)) true).
      intros dirs. revert s Hs.
      induction dirs as [|dir dirs IHd]; intros s Hs; [done|].
      cbn [addPlugin_each].
      pose proof (addPlugin_frame dir (dissoc_matching options) s) as (_ & _ & Hd & _).
      destruct (addPlugin dir (dissoc_matching options) s) as [r s'|e s'];
        cbn in Hd; [apply IHd | cbn]; by rewrite Hd. }
  apply Hinv. by left.
Qed.

(** ** Command resolution *)

(** With a default plugin set, the search order is that plugin followed by
    the other entries of the registry that are not nil. *)
Lemma search_order_default (s : Store) (d : nat) :
  defaultPlugin (this s) = PluginRef d →
  search_order s =
  PluginRef d ::
    filter (λ p, ¬ isNil p) (filter (λ p, p ≠ PluginRef d) (plugins (this s))).
Proof.
  intros Hd. unfold search_order. rewrite Hd.
  rewrite filter_cons_True; [done|]. cbn. by intros [].
Qed.

(** The resolver on the examples of the specification: a nested command
    with a trailing flag, an alias, and an empty token array without a
    root command. *)
Example walk_build_release :
  let release := mkCommand "release" [] [] 2 in
  let build := mkCommand "build" ["b"] [release] 1 in
  RuntimeFindCommand.walk [build] ["build"; "release"; "--flag"]
    = Some (release, ["--flag"]) ∧
  RuntimeFindCommand.walk [build] ["b"; "--flag"] = Some (build, ["--flag"]) ∧
  RuntimeFindCommand.walk [build] ["Build"] = None.
Proof. repeat split. Qed.

Example findCommand_no_root_command :
  findCommand (mkParameters [] ∅) Installation.two_plugins = None.
Proof. reflexivity. Qed.

(** When the default plugin has no command for the tokens, the next plugin
    of the search order is asked. *)
Example findCommand_falls_through :
  let other := mkCommand "deploy" [] [] 9 in
  let s :=
    mkStore
      [mkPlugin (Some "app") "/app" false [Installation.status 1] [];
       mkPlugin (Some "two") "/plugins/two" false [other] []]
      (mkRuntime (Some "app") [PluginRef 0; PluginRef 1] [] (VObj ∅) (PluginRef 0) ∅) in
  findCommand (mkParameters ["deploy"; "now"] ∅) s
    = Some (mkFound (PluginRef 1) other ["now"]).
Proof. reflexivity. Qed.

(** On a store whose [defaultPlugin] refers to a Plugin object, the search
    order starts with it and goes on with the other registered plugins, in
    registration order and without the null slots; hence whenever that
    plugin has a command for the tokens, [findCommand] returns it and that
    command, whatever else is registered and wherever. *)
Theorem findCommand_default_plugin_first
    (s : Store) (d : nat) (p : Plugin) (parameters : Parameters)
    (c : Command) (rest : list string) :
  defaultPlugin (this s) = PluginRef d →
  objects s !! d = Some p →
  RuntimeFindCommand.resolve_in p (array parameters) = Some (c, rest) →
  (∃ others,
     search_order s = PluginRef d :: others ∧
     others `sublist_of` plugins (this s) ∧
     ∀ r, r ∈ others ↔ r ∈ plugins (this s) ∧ r ≠ Null ∧ r ≠ PluginRef d) ∧
  findCommand parameters s = Some (mkFound (PluginRef d) c rest).
Proof.
  intros Hd Hp Hmatch. split.
  - eexists. split; [by apply search_order_default|]. split.
    + etrans; apply sublist_filter.
    + intros r. rewrite !list_elem_of_filter. split.
      * intros (Hnil & Hne & Hin). split; [exact Hin|]. split; [|exact Hne].
        intros ->. by apply Hnil.
      * intros (Hin & Hnull & Hne). split; [|by split].
        destruct r; [done|by intros []..].
  - unfold findCommand, RuntimeFindCommand.findCommand.
    rewrite (search_order_default s d Hd). cbn [RuntimeFindCommand.first_match].
    rewrite Hp. cbn. by rewrite Hmatch.
Qed.

Lemma findCommand_default_plugin_first_witness :
  search_order Installation.two_plugins = [PluginRef 0; PluginRef 1] ∧
  findCommand (mkParameters ["status"] ∅) Installation.two_plugins
  = Some (mkFound (PluginRef 0) (Installation.status 1) []).
Proof.
  destruct (findCommand_default_plugin_first Installation.two_plugins 0
              (mkPlugin (Some "app") "/app" false [Installation.status 1] [])
              (mkParameters ["status"] ∅) (Installation.status 1) []
              eq_refl eq_refl eq_refl) as [_ Hfound].
  split; [reflexivity | exact Hfound].
Defined.

(** * Further properties of the methods *)

(** What [addCommand] does, by the value of [defaultPlugin]. *)
Lemma addCommand_cases `{Host} (command : RawCommand) (s : Store) :
  addCommand command s =
  match defaultPlugin (this s) with
  | Null =>
      Thrown (JsError ("Can't add command " +:+ raw_name command +:+
                " - no default plugin. You may have forgotten a src() on your runtime.")) s
  | RuntimeRef => Thrown (TypeError "Cannot read property 'unshift' of undefined") s
  | PluginRef l =>
      match objects s !! l with
      | Some p =>
          Returned RuntimeRef
            (set_objects
               (<[l := set_commands (loadCommandFromPreload command :: commands p) p]>
                  (objects s)) s)
      | None => Thrown (TypeError "Cannot read property 'commands' of undefined") s
      end
  end.
Proof.
  unfold addCommand, bind, get. destruct (defaultPlugin (this s)) as [|l|]; try done.
  cbn. unfold bind, get. by destruct (objects s !! l).
Qed.

(** ** A principle for invariants *)

(** A property of the store that the elementary updates keep is kept by
    every registration call, whether the call returns or throws. *)
Section Invariant.
Context `{host : Host}.
Variable P : Store → Prop.
Hypothesis P_registered : ∀ p s, P s → P (registered p s).
Hypothesis P_extension :
  ∀ e s, P s → P (set_extensions (extensions (this s) ++ [e]) s).
Hypothesis P_commands :
  ∀ l p cs s, P s → objects s !! l = Some p →
    P (set_objects (<[l := set_commands cs p]> (objects s)) s).
Hypothesis P_defaultPlugin : ∀ s, P s → P (set_defaultPlugin RuntimeRef s).
Hypothesis P_defaults : ∀ v s, P s → P (set_defaults v s).
Hypothesis P_config : ∀ v s, P s → P (set_config v s).

Lemma addPlugin_keeps directory options s :
  P s → P (store_of (addPlugin directory options s)).
Proof.
  intros Hs. rewrite addPlugin_cases. repeat case_match; cbn; auto.
Qed.

Lemma addPlugin_each_keeps dirs options s :
  P s → P (store_of (addPlugin_each dirs options s)).
Proof.
  revert s. induction dirs as [|dir dirs IH]; intros s Hs; [done|].
  cbn [addPlugin_each].
  pose proof (addPlugin_keeps dir options s Hs) as Hstep.
  destruct (addPlugin dir options s) as [r s'|e s']; [by apply IH | done].
Qed.

Lemma addDefaultPlugin_keeps directory options s :
  P s → P (store_of (addDefaultPlugin directory options s)).
Proof.
  intros Hs. rewrite addDefaultPlugin_cases.
  pose proof (addPlugin_keeps directory
                (default_plugin_options (brand (this s)) options) s Hs) as Hadd.
  destruct (addPlugin _ _ s) as [plugin s1|e s'] eqn:Hrun; [|done].
  apply addPlugin_returns_this in Hrun as ->.
  cbn zeta. repeat case_match; cbn; auto.
Qed.

Lemma perform_keeps c s : P s → P (store_of (perform c s)).
Proof.
  intros Hs.
  destruct c as [command|n f|directory options|directory options|directory options];
    cbn [perform].
  - rewrite addCommand_cases. repeat case_match; cbn; auto.
  - by apply P_extension.
  - by apply addDefaultPlugin_keeps.
  - by apply addPlugin_keeps.
  - rewrite addPlugins_cases. case_match; [done|]. by apply addPlugin_each_keeps.
Qed.

Lemma after_keeps calls s : P s → P (after calls s).
Proof.
  revert s. induction calls as [|c calls IH]; intros s Hs; [done|].
  cbn. by apply IH, perform_keeps.
Qed.

End Invariant.

(** ** Invariants of a runtime built through its methods *)

Global Instance PluginRef_inj : Inj (=) (=) PluginRef.
Proof. intros l1 l2 Heq. by injection Heq. Qed.

(** X1: on a runtime built by any registration calls, slot [i] of the
    plugin registry refers to the [i]-th Plugin object created: the
    registry has no null slot, no reference twice and no reference to an
    object that does not exist. *)
Theorem registry_tracks_objects `{Host} (brand0 : option string) (calls : list Call) :
  let s := after calls (new_Runtime brand0) in
  plugins (this s) = PluginRef <$> seq 0 (length (objects s)) ∧
  NoDup (plugins (this s)) ∧
  (Null ∉ plugins (this s)) ∧
  ∀ r, r ∈ plugins (this s) → ∃ l p, r = PluginRef l ∧ objects s !! l = Some p.
Proof.
  cbn zeta.
  assert (tracked (after calls (new_Runtime brand0))) as Htracked.
  { apply after_keeps; try done.
    - intros p s Hs. unfold tracked, registered in *. cbn.
      rewrite length_app, Nat.add_1_r, seq_S, fmap_app. cbn. by rewrite Hs.
    - intros l p cs s Hs _. unfold tracked in *. cbn. by rewrite length_insert. }
  unfold tracked in Htracked. rewrite Htracked. split; [done|]. split; [|split].
  - apply NoDup_fmap_2; [apply _ | apply NoDup_seq].
  - intros (l & Hl & _)%list_elem_of_fmap. discriminate Hl.
  - intros r (l & -> & Hl)%list_elem_of_fmap.
    apply elem_of_seq in Hl as [_ Hl].
    destruct (lookup_lt_is_Some_2 (objects (after calls (new_Runtime brand0))) l)
      as [p Hp]; [lia|].
    by exists l, p.
Qed.

(** X2: no registration call changes the brand: it is the one given to
    the constructor, whatever was called since and whatever threw. *)
Theorem brand_is_fixed `{Host} (brand0 : option string) (calls : list Call) :
  brand (this (after calls (new_Runtime brand0))) = brand0.
Proof.
  apply (after_keeps (λ s, brand (this s) = brand0)); done.
Qed.

(** X3: on a runtime built by registration calls alone [defaultPlugin] is
    null or the runtime itself, and [addCommand] never returns: it throws
    and leaves the store as it is. *)
Theorem addCommand_never_returns `{Host}
    (brand0 : option string) (calls : list Call) (command : RawCommand) :
  let s := after calls (new_Runtime brand0) in
  (defaultPlugin (this s) = Null ∨ defaultPlugin (this s) = RuntimeRef) ∧
  ∃ e, addCommand command s = Thrown e s.
Proof.
  cbn zeta.
  assert (defaultPlugin (this (after calls (new_Runtime brand0))) = Null ∨
          defaultPlugin (this (after calls (new_Runtime brand0))) = RuntimeRef) as Hd.
  { apply (after_keeps (λ s, defaultPlugin (this s) = Null ∨
                             defaultPlugin (this s) = RuntimeRef)); auto. }
  split; [exact Hd|]. rewrite addCommand_cases.
  destruct Hd as [-> | ->]; by eexists.
Qed.

(** ** The default plugin: edge cases *)

(** X4: when the directory does not exist and the options of the caller
    have no [required] key, or have it with the value [true],
    [addDefaultPlugin] throws the error of [addPlugin], with the directory
    at the end of its message, and nothing has changed: no default plugin
    is set. *)
Theorem addDefaultPlugin_not_a_directory `{Host}
    (directory : string) (options : Options) (s : Store) :
  isDirectory directory = false →
  required options = Absent ∨ required options = Given true →
  addDefaultPlugin directory options s =
  Thrown (JsError ("Error: couldn't load plugin (not a directory): " +:+ directory)) s.
Proof.
  intros Hdir Hreq. rewrite addDefaultPlugin_cases, addPlugin_cases, Hdir. cbn.
  by destruct Hreq as [-> | ->].
Qed.

Lemma addDefaultPlugin_not_a_directory_witness :
  @addDefaultPlugin Installation.node "/nowhere" no_options (new_Runtime (Some "app"))
  = Thrown (JsError "Error: couldn't load plugin (not a directory): /nowhere")
      (new_Runtime (Some "app")) ∧
  @addDefaultPlugin Installation.node "/nowhere"
    (mkOptions (Given true) Absent Absent Absent Absent Absent Absent)
    (new_Runtime (Some "app"))
  = Thrown (JsError "Error: couldn't load plugin (not a directory): /nowhere")
      (new_Runtime (Some "app")).
Proof.
  split.
  - apply (@addDefaultPlugin_not_a_directory Installation.node "/nowhere" no_options
             (new_Runtime (Some "app"))); [reflexivity|].
    left. reflexivity.
  - apply (@addDefaultPlugin_not_a_directory Installation.node "/nowhere"
             (mkOptions (Given true) Absent Absent Absent Absent Absent Absent)
             (new_Runtime (Some "app"))); [reflexivity|].
    right. reflexivity.
Defined.

(** X5: when the directory does not exist and the options of the caller
    have a [required] key with the value [false] or [undefined], nothing is
    loaded and the registries stay as they are, but [defaultPlugin] is set
    all the same, to the runtime. *)
Theorem addDefaultPlugin_optional_not_a_directory `{Host}
    (directory : string) (options : Options) (s : Store) :
  isDirectory directory = false →
  required options = Given false ∨ required options = Undefined →
  let s' := store_of (addDefaultPlugin directory options s) in
  objects s' = objects s ∧
  plugins (this s') = plugins (this s) ∧
  extensions (this s') = extensions (this s) ∧
  defaultPlugin (this s') = RuntimeRef.
Proof.
  intros Hdir Hreq. cbn zeta.
  rewrite addDefaultPlugin_cases, addPlugin_cases, Hdir. cbn.
  destruct Hreq as [-> | ->]; cbn; repeat case_match; done.
Qed.

Lemma addDefaultPlugin_optional_not_a_directory_witness :
  let s := new_Runtime (Some "app") in
  let s' := store_of (@addDefaultPlugin Installation.node "/nowhere"
                        (mkOptions (Given false) Absent Absent Absent Absent Absent Absent) s) in
  let s'' := store_of (@addDefaultPlugin Installation.node "/nowhere"
                         (mkOptions Undefined Absent Absent Absent Absent Absent Absent) s) in
  (objects s' = objects s ∧
   plugins (this s') = plugins (this s) ∧
   extensions (this s') = extensions (this s) ∧
   defaultPlugin (this s') = RuntimeRef) ∧
  (objects s'' = objects s ∧
   plugins (this s'') = plugins (this s) ∧
   extensions (this s'') = extensions (this s) ∧
   defaultPlugin (this s'') = RuntimeRef).
Proof.
  split.
  - apply (@addDefaultPlugin_optional_not_a_directory Installation.node "/nowhere"
             (mkOptions (Given false) Absent Absent Absent Absent Absent Absent)
             (new_Runtime (Some "app"))); [reflexivity|].
    left. reflexivity.
  - apply (@addDefaultPlugin_optional_not_a_directory Installation.node "/nowhere"
             (mkOptions Undefined Absent Absent Absent Absent Absent Absent)
             (new_Runtime (Some "app"))); [reflexivity|].
    right. reflexivity.
Defined.

(** X6: a call of [addDefaultPlugin] that throws has changed neither
    [defaults] nor [config] nor the brand. Either [addPlugin] threw and
    the store is untouched, or the exception came afterwards and then the
    plugin stays registered and [defaultPlugin] stays set. *)
Theorem addDefaultPlugin_thrown `{Host}
    (directory : string) (options : Options) (s s' : Store) (e : Error) :
  addDefaultPlugin directory options s = Thrown e s' →
  defaults (this s') = defaults (this s) ∧
  config (this s') = config (this s) ∧
  (s' = s ∨
   s' = set_defaultPlugin RuntimeRef
          (store_of (addPlugin directory
                       (default_plugin_options (brand (this s)) options) s))).
Proof.
  rewrite addDefaultPlugin_cases.
  pose proof (addPlugin_frame directory
                (default_plugin_options (brand (this s)) options) s) as Hframe.
  destruct (addPlugin _ _ s) as [plugin s1|e1 s1] eqn:Hadd.
  - apply addPlugin_returns_this in Hadd as ->.
    cbn in Hframe. destruct Hframe as (_ & Hdefaults & _ & Hconfig).
    cbn zeta. intros Hthrown.
    assert (s' = set_defaultPlugin RuntimeRef s1) as ->
      by (repeat case_match; congruence).
    cbn. auto.
  - apply addPlugin_thrown in Hadd as ->. intros [= _ <-]. auto.
Qed.

Lemma addDefaultPlugin_thrown_witness :
  let s := new_Runtime (Some "app") in
  let app := mkPlugin (Some "app") "/app" false [Installation.status 4]
               [mkExtension "print" (SetupFn 4)] in
  let s' := set_defaultPlugin RuntimeRef (registered app s) in
  defaults (this s') = defaults (this s) ∧
  config (this s') = config (this s) ∧
  (s' = s ∨
   s' = set_defaultPlugin RuntimeRef
          (store_of (@addPlugin Installation.node "/app"
                       (@default_plugin_options (brand (this s)) no_options) s))).
Proof.
  exact (@addDefaultPlugin_thrown Installation.node "/app" no_options
           (new_Runtime (Some "app"))
           (set_defaultPlugin RuntimeRef
              (registered
                 (mkPlugin (Some "app") "/app" false [Installation.status 4]
                    [mkExtension "print" (SetupFn 4)])
                 (new_Runtime (Some "app"))))
           (ReferenceError "defaultPlugin") eq_refl).
Defined.

(** X7: an exception of the config loader leaves [addDefaultPlugin] as
    it is, after the plugin was registered and [defaultPlugin] set. *)
Theorem addDefaultPlugin_loadConfig_throws `{Host}
    (directory : string) (options : Options) (s s1 : Store) (plugin : ref)
    (g key : value) (e : Error) :
  addPlugin directory (default_plugin_options (brand (this s)) options) s
    = Returned plugin s1 →
  global_scope "defaultPlugin" = Some g →
  get_property g "value" = inr key →
  loadConfig (brand (this s)) key = inl e →
  addDefaultPlugin directory options s = Thrown e (set_defaultPlugin RuntimeRef s1).
Proof.
  intros Hadd Hg Hkey Hload.
  pose proof (addPlugin_frame directory
                (default_plugin_options (brand (this s)) options) s) as Hframe.
  rewrite Hadd in Hframe. cbn in Hframe. destruct Hframe as (Hbrand & _).
  rewrite addDefaultPlugin_cases, Hadd.
  apply addPlugin_returns_this in Hadd as ->.
  cbn zeta. rewrite Hg, Hkey.
  replace (brand (this (set_defaultPlugin RuntimeRef s1))) with (brand (this s))
    by (by rewrite <- Hbrand).
  by rewrite Hload.
Qed.

Lemma addDefaultPlugin_loadConfig_throws_witness :
  let s := new_Runtime (Some "app") in
  let app := mkPlugin (Some "app") "/app" false [Installation.status 4]
               [mkExtension "print" (SetupFn 4)] in
  @addDefaultPlugin Scenarios.unreadable "/app" no_options s
  = Thrown (JsError "cannot parse /app/app.toml")
      (set_defaultPlugin RuntimeRef (registered app s)).
Proof.
  apply (@addDefaultPlugin_loadConfig_throws Scenarios.unreadable "/app" no_options
           (new_Runtime (Some "app")) _ RuntimeRef
           (VObj {[ "value" := VStr "/app" ]}) (VStr "/app")
           (JsError "cannot parse /app/app.toml")
           eq_refl eq_refl eq_refl eq_refl).
Defined.

(** ** Commands of the default plugin *)

Lemma set_commands_twice (cs cs' : list Command) (p : Plugin) :
  set_commands cs (set_commands cs' p) = set_commands cs p.
Proof. done. Qed.

(** X8: [addCommand] touches nothing but the command sequence of the
    default plugin. Returning or throwing, it leaves the fields of the
    runtime and the number of Plugin objects as they are; every other
    plugin is unchanged, and the default plugin keeps its name, directory,
    hidden flag and extensions. *)
Theorem addCommand_frame `{Host} (command : RawCommand) (s : Store) :
  let s' := store_of (addCommand command s) in
  this s' = this s ∧
  length (objects s') = length (objects s) ∧
  (∀ l, defaultPlugin (this s) ≠ PluginRef l → objects s' !! l = objects s !! l) ∧
  (∀ l p, objects s !! l = Some p →
     ∃ p', objects s' !! l = Some p' ∧
           plugin_name p' = plugin_name p ∧
           plugin_directory p' = plugin_directory p ∧
           plugin_hidden p' = plugin_hidden p ∧
           plugin_extensions p' = plugin_extensions p).
Proof.
  cbn zeta. rewrite addCommand_cases.
  assert (∀ l p, objects s !! l = Some p →
            ∃ p', objects s !! l = Some p' ∧
                  plugin_name p' = plugin_name p ∧
                  plugin_directory p' = plugin_directory p ∧
                  plugin_hidden p' = plugin_hidden p ∧
                  plugin_extensions p' = plugin_extensions p) as Hsame
    by (intros l p Hp; by exists p).
  destruct (defaultPlugin (this s)) as [|d|] eqn:Hd; [done| |done].
  destruct (objects s !! d) as [pd|] eqn:Hpd; [|done].
  cbn. split; [done|]. split; [apply length_insert|]. split.
  - intros l Hl. apply list_lookup_insert_ne. congruence.
  - intros l p Hp. destruct (decide (d = l)) as [<-|Hne].
    + eexists. split; [apply list_lookup_insert_eq; by eapply lookup_lt_Some|].
      assert (pd = p) as -> by congruence. done.
    + exists p. by rewrite list_lookup_insert_ne.
Qed.

Lemma addCommand_frame_witness :
  let s := Installation.two_plugins in
  let s' := store_of (@addCommand Installation.node (mkRawCommand "build" 7) s) in
  objects s' !! 1 = objects s !! 1 ∧
  ∃ p', objects s' !! 0 = Some p' ∧ plugin_name p' = Some "app".
Proof.
  cbn zeta.
  destruct (@addCommand_frame Installation.node (mkRawCommand "build" 7)
              Installation.two_plugins) as (_ & _ & Hother & Hdefault).
  split.
  - apply (Hother 1). simpl. discriminate.
  - destruct (Hdefault 0 (mkPlugin (Some "app") "/app" false [Installation.status 1] [])
                eq_refl) as (p' & Hp' & Hname & _).
    exists p'. split; [exact Hp' | exact Hname].
Defined.

(** X9: commands added one after the other end up in front of the
    commands the default plugin had, the last one added first. *)
Theorem addCommand_last_added_first `{Host}
    (raws : list RawCommand) (s : Store) (l : nat) (p : Plugin) :
  defaultPlugin (this s) = PluginRef l →
  objects s !! l = Some p →
  after (AddCommand <$> raws) s =
  set_objects
    (<[l := set_commands (reverse (loadCommandFromPreload <$> raws) ++ commands p) p]>
       (objects s)) s.
Proof.
  revert s p. induction raws as [|raw raws IH]; intros s p Hd Hp.
  - cbn. rewrite list_insert_id; [by destruct s|]. rewrite Hp. by destruct p.
  - rewrite !fmap_cons. unfold after at 1. cbn [foldl perform].
    rewrite addCommand_cases, Hd, Hp. cbn [store_of].
    etrans.
    { apply (IH _ (set_commands (loadCommandFromPreload raw :: commands p) p));
        [done|]. cbn. apply list_lookup_insert_eq. by eapply lookup_lt_Some. }
    rewrite reverse_cons, <- app_assoc. unfold set_objects. cbn [objects this app].
    by rewrite list_insert_insert_eq.
Qed.

Lemma addCommand_last_added_first_witness :
  @after Installation.node
    (AddCommand <$> [mkRawCommand "build" 7; mkRawCommand "test" 8])
    Installation.two_plugins
  = set_objects
      [mkPlugin (Some "app") "/app" false
         [mkCommand "test" [] [] 8; mkCommand "build" [] [] 7; Installation.status 1] [];
       mkPlugin (Some "two") "/plugins/two" false [Installation.status 2] []]
      Installation.two_plugins.
Proof.
  exact (@addCommand_last_added_first Installation.node
           [mkRawCommand "build" 7; mkRawCommand "test" 8] Installation.two_plugins 0
           (mkPlugin (Some "app") "/app" false [Installation.status 1] [])
           eq_refl eq_refl).
Defined.

(** ** Batches that load *)

Lemma register_all_fields (ps : list Plugin) (s : Store) :
  objects (register_all ps s) = objects s ++ ps ∧
  plugins (this (register_all ps s)) =
    plugins (this s) ++ (PluginRef <$> seq (length (objects s)) (length ps)) ∧
  extensions (this (register_all ps s)) = extensions (this s) ++ (ps ≫= plugin_extensions) ∧
  brand (this (register_all ps s)) = brand (this s).
Proof.
  revert s. induction ps as [|p ps IH]; intros s.
  - cbn. by rewrite !app_nil_r.
  - cbn [register_all foldl]. fold (register_all ps (registered p s)).
    destruct (IH (registered p s)) as (-> & -> & -> & ->). cbn.
    rewrite length_app, Nat.add_1_r, <- !app_assoc. done.
Qed.

(** A batch whose directories all load registers them one after the
    other; an entry that is no directory is passed over when the options
    do not require it. *)
Lemma addPlugin_each_registers `{Host}
    (options : Options) (s : Store) (dirs : list string) (ps : list Plugin) (s0 : Store) :
  brand (this s0) = brand (this s) →
  required options ≠ Given true →
  Forall2 (λ dir p, loadPluginFromDirectory (resolve dir) (loader_options s options) = inr p)
    (filter (λ dir, isDirectory dir) dirs) ps →
  addPlugin_each dirs options s0 = Returned RuntimeRef (register_all ps s0).
Proof.
  intros Hbrand Hreq. revert ps s0 Hbrand.
  induction dirs as [|dir dirs IH]; intros ps s0 Hbrand Hall.
  - by apply Forall2_nil_inv_l in Hall as ->.
  - cbn [addPlugin_each]. rewrite addPlugin_cases.
    destruct (isDirectory dir) eqn:Hdir.
    + rewrite filter_cons_True in Hall by (by rewrite Hdir).
      apply Forall2_cons_inv_l in Hall as (p & ps' & Hload & Hall & ->).
      replace (loader_options s0 options) with (loader_options s options)
        by (unfold loader_options; by rewrite Hbrand).
      rewrite Hload.
      change (register_all (p :: ps') s0) with (register_all ps' (registered p s0)).
      by apply IH.
    + rewrite filter_cons_False in Hall by (rewrite Hdir; intros []).
      assert (is_true (read (required options)) = false) as ->
        by (by destruct (required options) as [| |[]]).
      by apply IH.
Qed.

(** X10: when every listed subdirectory loads, [addPlugins] returns with
    the plugins registered in the order of the listing: one new object
    and one new slot per subdirectory, their extensions appended plugin by
    plugin. A listed entry that is no directory is passed over when the
    options do not say [required: true]; a subdirectory listed twice is
    loaded twice. *)
Theorem addPlugins_registers_in_order `{Host}
    (directory : string) (options : Options) (s : Store) (ps : list Plugin) :
  isBlank directory = false →
  isDirectory directory = true →
  required options ≠ Given true →
  Forall2 (λ dir p, loadPluginFromDirectory (resolve dir)
                      (loader_options s (dissoc_matching options)) = inr p)
    (filter (λ dir, isDirectory dir)
       (subdirectories directory false (read (matching options)) true)) ps →
  ∃ s', addPlugins directory options s = Returned RuntimeRef s' ∧
        objects s' = objects s ++ ps ∧
        plugins (this s') =
          plugins (this s) ++ (PluginRef <$> seq (length (objects s)) (length ps)) ∧
        extensions (this s') = extensions (this s) ++ (ps ≫= plugin_extensions).
Proof.
  intros Hblank Hdir Hreq Hall. exists (register_all ps s).
  rewrite addPlugins_cases, Hblank, Hdir. cbn [orb negb].
  split; [by apply (addPlugin_each_registers _ s)|].
  by destruct (register_all_fields ps s) as (-> & -> & -> & _).
Qed.

Lemma addPlugins_registers_in_order_witness :
  let s := new_Runtime (Some "app") in
  ∃ s', @addPlugins Scenarios.unreadable "/plugins" no_options s = Returned RuntimeRef s' ∧
        objects s' =
          [Scenarios.plugin_at "/plugins/one"; Scenarios.plugin_at "/plugins/two";
           Scenarios.plugin_at "/plugins/one"] ∧
        plugins (this s') = [PluginRef 0; PluginRef 1; PluginRef 2] ∧
        extensions (this s') =
          extensions (this s) ++
          [mkExtension "print" (SetupFn 12); mkExtension "print" (SetupFn 12);
           mkExtension "print" (SetupFn 12)].
Proof.
  cbn zeta.
  refine (@addPlugins_registers_in_order Scenarios.unreadable "/plugins" no_options
            (new_Runtime (Some "app"))
            [Scenarios.plugin_at "/plugins/one"; Scenarios.plugin_at "/plugins/two";
             Scenarios.plugin_at "/plugins/one"]
            eq_refl eq_refl _ _).
  - simpl. discriminate.
  - vm_compute. repeat constructor.
Defined.

(** ** Extensions added by hand *)

(** X11: extensions added one by one stand behind the ones already there
    in the order of the calls, names that occur twice included; nothing
    else in the store changes. *)
Theorem addExtension_in_call_order `{Host} (es : list Extension) (s : Store) :
  after (extension_calls es) s = set_extensions (extensions (this s) ++ es) s.
Proof.
  revert s. induction es as [|[n f] es IH]; intros s.
  - cbn. rewrite app_nil_r. by destruct s as [? []].
  - unfold extension_calls. rewrite fmap_cons. unfold after. cbn [foldl perform].
    etrans; [apply IH|]. unfold set_extensions. cbn. by rewrite <- app_assoc.
Qed.

(** X12: loading the same directory twice registers it twice: there is no
    check for a plugin that is already there. Two objects are created and
    two slots refer to them. *)
Theorem addPlugin_twice `{Host}
    (directory : string) (options : Options) (s : Store) (p : Plugin) :
  isDirectory directory = true →
  loadPluginFromDirectory (resolve directory) (loader_options s options) = inr p →
  let s' := after [AddPlugin directory options; AddPlugin directory options] s in
  objects s' = objects s ++ [p; p] ∧
  plugins (this s') =
    plugins (this s) ++ [PluginRef (length (objects s)); PluginRef (S (length (objects s)))] ∧
  extensions (this s') = extensions (this s) ++ plugin_extensions p ++ plugin_extensions p.
Proof.
  intros Hdir Hload. cbn zeta. unfold after. cbn [foldl perform].
  rewrite (addPlugin_cases directory options s), Hdir, Hload. cbn [store_of].
  rewrite addPlugin_cases, Hdir.
  change (loader_options (registered p s) options) with (loader_options s options).
  rewrite Hload. cbn. rewrite length_app, Nat.add_1_r, <- !app_assoc. done.
Qed.

Lemma addPlugin_twice_witness :
  let s := new_Runtime (Some "app") in
  let s' := @after Installation.node
              [AddPlugin "/plugins/one" no_options; AddPlugin "/plugins/one" no_options] s in
  objects s' = [Scenarios.plugin_at "/plugins/one"; Scenarios.plugin_at "/plugins/one"] ∧
  plugins (this s') = [PluginRef 0; PluginRef 1] ∧
  extensions (this s') =
    extensions (this s) ++
    [mkExtension "print" (SetupFn 12)] ++ [mkExtension "print" (SetupFn 12)].
Proof.
  exact (@addPlugin_twice Installation.node "/plugins/one" no_options
           (new_Runtime (Some "app")) (Scenarios.plugin_at "/plugins/one")
           eq_refl eq_refl).
Defined.

(** ** The search order *)

Lemma filter_not_nil_not_null (l : list ref) :
  filter (λ p, ¬ isNil p) (filter (λ p, p ≠ Null) l) = filter (λ p, ¬ isNil p) l.
Proof.
  induction l as [|r l IH]; [done|].
  destruct r as [|n|].
  - rewrite (filter_cons_False _ Null) by (intros Hne; by apply Hne).
    rewrite (filter_cons_False _ Null) by (intros Hnil; by apply Hnil).
    exact IH.
  - rewrite (filter_cons_True (λ p, p ≠ Null)) by done.
    rewrite !(filter_cons_True (λ p, ¬ isNil p)) by (by intros []).
    by rewrite IH.
  - rewrite (filter_cons_True (λ p, p ≠ Null)) by done.
    rewrite !(filter_cons_True (λ p, ¬ isNil p)) by (by intros []).
    by rewrite IH.
Qed.

(** X13: the search order of lines 179-180, for any store. It never holds
    null; it holds exactly the default plugin and the registered plugins
    that are not null; it repeats no plugin when the registry repeats
    none; a default plugin that is set comes first; without one the order
    is the registry less its null slots. *)
Theorem search_order_spec (s : Store) :
  (Null ∉ search_order s) ∧
  (∀ r, r ∈ search_order s ↔
        r ≠ Null ∧ (r = defaultPlugin (this s) ∨ r ∈ plugins (this s))) ∧
  (NoDup (plugins (this s)) → NoDup (search_order s)) ∧
  (defaultPlugin (this s) ≠ Null → head (search_order s) = Some (defaultPlugin (this s))) ∧
  (defaultPlugin (this s) = Null →
     search_order s = filter (λ p, ¬ isNil p) (plugins (this s))).
Proof.
  assert (∀ r, r ∈ search_order s ↔
            r ≠ Null ∧ (r = defaultPlugin (this s) ∨ r ∈ plugins (this s))) as Hmem.
  { intros r. unfold search_order. rewrite list_elem_of_filter, elem_of_cons.
    rewrite list_elem_of_filter. split.
    - intros [Hnil Hin]. split; [intros ->; by apply Hnil|].
      destruct Hin as [->|[_ Hin]]; auto.
    - intros [Hnull Hin]. split; [destruct r; [by destruct Hnull | by intros [] ..]|].
      destruct (decide (r = defaultPlugin (this s))) as [->|Hne]; [by left|].
      right. split; [done|]. by destruct Hin. }
  split; [|split; [exact Hmem|split; [|split]]].
  - intros [Hnull _]%Hmem. done.
  - intros Hnodup. unfold search_order. apply NoDup_filter, NoDup_cons. split.
    + intros [Hne _]%list_elem_of_filter. done.
    + by apply NoDup_filter.
  - intros Hd. unfold search_order. rewrite filter_cons_True; [done|].
    destruct (defaultPlugin (this s)); [done|by intros []..].
  - intros Hd. unfold search_order. rewrite Hd.
    rewrite (filter_cons_False _ Null) by (intros Hnil; by apply Hnil).
    apply filter_not_nil_not_null.
Qed.

Lemma search_order_spec_witness :
  NoDup (search_order Installation.two_plugins) ∧
  head (search_order Installation.two_plugins) = Some (PluginRef 0) ∧
  search_order (new_Runtime (Some "app")) = [].
Proof.
  split; [|split].
  - apply (proj1 (proj2 (proj2 (search_order_spec Installation.two_plugins)))).
    apply (bool_decide_unpack (NoDup (plugins (this Installation.two_plugins)))).
    vm_compute. exact I.
  - apply (proj1 (proj2 (proj2 (proj2 (search_order_spec Installation.two_plugins))))).
    simpl. discriminate.
  - apply (proj2 (proj2 (proj2 (proj2 (search_order_spec (new_Runtime (Some "app"))))))).
    reflexivity.
Defined.

(** ** The default plugin and the loader *)

(** X14: [addDefaultPlugin] on an existing directory has the loader
    build the plugin under the brand when the options of the caller have
    no [name] key, and under what that key holds when they have it, a name
    or [undefined]; the other loader options are what the caller's options
    read as.  Whatever happens afterwards in the call, that plugin is the
    new last object and the new last slot of the registry, and its
    extensions are the new last extensions. *)
Theorem addDefaultPlugin_loads_under_brand `{Host}
    (directory : string) (options : Options) (s : Store) (p : Plugin) :
  isDirectory directory = true →
  loadPluginFromDirectory (resolve directory)
    {| lo_brand := brand (this s);
       lo_hidden := read (hidden options);
       lo_name := match name options with
                  | Absent => brand (this s)
                  | Undefined => None
                  | Given n => Some n
                  end;
       lo_commandFilePattern := read (commandFilePattern options);
       lo_extensionFilePattern := read (extensionFilePattern options);
       lo_preloadedCommands := read (preloadedCommands options) |} = inr p →
  let s' := store_of (addDefaultPlugin directory options s) in
  objects s' = objects s ++ [p] ∧
  plugins (this s') = plugins (this s) ++ [PluginRef (length (objects s))] ∧
  extensions (this s') = extensions (this s) ++ plugin_extensions p ∧
  defaultPlugin (this s') = RuntimeRef.
Proof.
  intros Hdir Hload. cbn zeta.
  rewrite addDefaultPlugin_cases, addPlugin_cases, Hdir.
  replace (loader_options s (default_plugin_options (brand (this s)) options))
    with {| lo_brand := brand (this s);
            lo_hidden := read (hidden options);
            lo_name := match name options with
                       | Absent => brand (this s)
                       | Undefined => None
                       | Given n => Some n
                       end;
            lo_commandFilePattern := read (commandFilePattern options);
            lo_extensionFilePattern := read (extensionFilePattern options);
            lo_preloadedCommands := read (preloadedCommands options) |}.
  - rewrite Hload. cbn zeta. repeat case_match; done.
  - unfold loader_options, default_plugin_options, Object_assign, override, written.
    destruct options as [r n h c e pc m], (brand (this s)).
    all: destruct n, h, c, e, pc; reflexivity.
Qed.

Lemma addDefaultPlugin_loads_under_brand_witness :
  let s := new_Runtime (Some "app") in
  let app := mkPlugin (Some "app") "/app" false [Installation.status 4]
               [mkExtension "print" (SetupFn 4)] in
  let unnamed := mkPlugin None "/app" false [Installation.status 4]
                   [mkExtension "print" (SetupFn 4)] in
  let s' := store_of (@addDefaultPlugin Installation.node "/app" no_options s) in
  let s'' := store_of (@addDefaultPlugin Installation.node "/app"
                         (mkOptions Absent Undefined Absent Absent Absent Absent Absent) s) in
  (objects s' = objects s ++ [app] ∧
   plugins (this s') = plugins (this s) ++ [PluginRef (length (objects s))] ∧
   extensions (this s') = extensions (this s) ++ plugin_extensions app ∧
   defaultPlugin (this s') = RuntimeRef) ∧
  (objects s'' = objects s ++ [unnamed] ∧
   plugins (this s'') = plugins (this s) ++ [PluginRef (length (objects s))] ∧
   extensions (this s'') = extensions (this s) ++ plugin_extensions unnamed ∧
   defaultPlugin (this s'') = RuntimeRef).
Proof.
  split.
  - exact (@addDefaultPlugin_loads_under_brand Installation.node "/app" no_options
             (new_Runtime (Some "app"))
             (mkPlugin (Some "app") "/app" false [Installation.status 4]
                [mkExtension "print" (SetupFn 4)])
             eq_refl eq_refl).
  - exact (@addDefaultPlugin_loads_under_brand Installation.node "/app"
             (mkOptions Absent Undefined Absent Absent Absent Absent Absent)
             (new_Runtime (Some "app"))
             (mkPlugin None "/app" false [Installation.status 4]
                [mkExtension "print" (SetupFn 4)])
             eq_refl eq_refl).
Defined.

(** * What the defect of the default plugin breaks *)

Lemma filter_plugin_refs (P : ref → Prop) `{∀ r, Decision (P r)} (ls : list nat) :
  (∀ l, P (PluginRef l)) → filter P (PluginRef <$> ls) = PluginRef <$> ls.
Proof.
  intros HP. induction ls as [|l ls IH]; [done|].
  rewrite fmap_cons, filter_cons_True by apply HP. by rewrite IH.
Qed.

(** On a runtime built through its methods the plugin list of lines 179
    and 180 is the registry in registration order, behind the runtime
    itself once [addDefaultPlugin] has set [defaultPlugin]: the plugin
    loaded as the default one is not moved to the front. *)
Lemma search_order_after_calls `{Host} (brand0 : option string) (calls : list Call) :
  let s := after calls (new_Runtime brand0) in
  search_order s =
  match defaultPlugin (this s) with
  | RuntimeRef => RuntimeRef :: plugins (this s)
  | _ => plugins (this s)
  end.
Proof.
  cbn zeta.
  assert ((defaultPlugin (this (after calls (new_Runtime brand0))) = Null ∨
           defaultPlugin (this (after calls (new_Runtime brand0))) = RuntimeRef) ∧
          tracked (after calls (new_Runtime brand0))) as [Hd Htracked].
  { apply (after_keeps (λ s, (defaultPlugin (this s) = Null ∨
                               defaultPlugin (this s) = RuntimeRef) ∧ tracked s)).
    - intros p s [Hd Hs]. split; [done|]. unfold tracked, registered in *. cbn.
      rewrite length_app, Nat.add_1_r, seq_S, fmap_app. cbn. by rewrite Hs.
    - intros e s [Hd Hs]. by split.
    - intros l p cs s [Hd Hs] _. split; [done|]. unfold tracked in *. cbn.
      by rewrite length_insert.
    - intros s [Hd Hs]. split; [by right | done].
    - intros v s [Hd Hs]. by split.
    - intros v s [Hd Hs]. by split.
    - split; [by left | done]. }
  unfold search_order. unfold tracked in Htracked. rewrite Htracked.
  destruct Hd as [-> | ->].
  - rewrite (filter_plugin_refs (λ p, p ≠ Null)) by done.
    rewrite (filter_cons_False _ Null) by (intros Hnil; by apply Hnil).
    by rewrite (filter_plugin_refs (λ p, ¬ isNil p)) by (by intros l []).
  - rewrite (filter_plugin_refs (λ p, p ≠ RuntimeRef)) by done.
    rewrite filter_cons_True by (by intros []).
    by rewrite (filter_plugin_refs (λ p, ¬ isNil p)) by (by intros l []).
Qed.

(** C1 does not hold of the code.  The plugin [addDefaultPlugin] loads is
    not what [defaultPlugin] refers to (line 108 stores the runtime), so
    the filter of line 179 takes nothing out and the plugin list is the
    runtime followed by the registry in registration order.  With
    [/plugins/two] registered before the default plugin [/app], both
    having a [status] command, the order is runtime, two, app, and the
    resolver answers with the [status] of [/plugins/two]; so it is on a
    host where [addDefaultPlugin] returns and under node, where it throws
    at line 111 after line 108. *)
Example findCommand_first_registered_wins :
  let calls := [AddPlugin "/plugins/two" no_options; AddDefaultPlugin "/app" no_options] in
  let s := @after Installation.patched calls (new_Runtime (Some "app")) in
  let s' := @after Installation.node calls (new_Runtime (Some "app")) in
  (plugin_directory <$> objects s = ["/plugins/two"; "/app"] ∧
   plugins (this s) = [PluginRef 0; PluginRef 1] ∧
   defaultPlugin (this s) = RuntimeRef ∧
   search_order s = [RuntimeRef; PluginRef 0; PluginRef 1] ∧
   findCommand (mkParameters ["status"] ∅) s
     = Some (mkFound (PluginRef 0) (Installation.status 12) [])) ∧
  (plugin_directory <$> objects s' = ["/plugins/two"; "/app"] ∧
   defaultPlugin (this s') = RuntimeRef ∧
   search_order s' = [RuntimeRef; PluginRef 0; PluginRef 1] ∧
   findCommand (mkParameters ["status"] ∅) s'
     = Some (mkFound (PluginRef 0) (Installation.status 12) [])) ∧
  (∃ s1, @addPlugin Installation.patched "/plugins/two" no_options (new_Runtime (Some "app"))
           = Returned RuntimeRef s1 ∧
         @addDefaultPlugin Installation.patched "/app" no_options s1
           = Returned RuntimeRef s).
Proof.
  cbn zeta. split; [repeat split|]. split; [repeat split|].
  eexists. split; [vm_compute; reflexivity | reflexivity].
Qed.

(** C3 does not hold of the code.  Once [addDefaultPlugin] has run,
    [defaultPlugin] is the runtime, which has no [commands]: [addCommand]
    gets past the test of line 75 and throws a [TypeError] at line 81.
    The command is inserted nowhere; the plugin that was loaded keeps the
    commands it had.  So it is on a host where [addDefaultPlugin] returns
    and under node, where it throws at line 111 after line 108. *)
Example addCommand_after_addDefaultPlugin_throws :
  let build := mkRawCommand "build" 7 in
  let s0 := new_Runtime (Some "app") in
  let s' := store_of (@addDefaultPlugin Installation.node "/app" no_options s0) in
  (∃ s, @addDefaultPlugin Installation.patched "/app" no_options s0 = Returned RuntimeRef s ∧
        (∃ message, @addCommand Installation.patched build s = Thrown (TypeError message) s) ∧
        commands <$> objects s = [[Installation.status 4]]) ∧
  (∃ message, @addCommand Installation.node build s' = Thrown (TypeError message) s') ∧
  commands <$> objects s' = [[Installation.status 4]].
Proof.
  cbn zeta. split; [|split].
  - eexists. split; [vm_compute; reflexivity|]. split; [by eexists | reflexivity].
  - by eexists.
  - reflexivity.
Qed.

(** Where the global scope has no [defaultPlugin], as under node, no call
    of [addDefaultPlugin] returns, and none changes [defaults] or
    [config]: the config loader is never asked. *)
Lemma addDefaultPlugin_without_global `{Host}
    (directory : string) (options : Options) (s : Store) :
  global_scope "defaultPlugin" = None →
  ∃ e s', addDefaultPlugin directory options s = Thrown e s' ∧
          defaults (this s') = defaults (this s) ∧
          config (this s') = config (this s).
Proof.
  intros Hg. rewrite addDefaultPlugin_cases, Hg.
  pose proof (addPlugin_frame directory
                (default_plugin_options (brand (this s)) options) s) as Hframe.
  destruct (addPlugin _ _ s) as [plugin s1|e s1]; cbn in Hframe;
    destruct Hframe as (_ & Hdefaults & _ & Hconfig); by eexists _, _.
Qed.

(** C6 does not hold of the code.  Line 111 names [defaultPlugin], which
    no scope of the file declares: under node the call throws a
    [ReferenceError] there, before [loadConfig] is called.  With a
    configuration [{ defaults: { color: true }, verbose: false }] waiting
    to be loaded, [defaults] and [config] are after the call the empty
    objects of the constructor. *)
Example addDefaultPlugin_loads_no_config :
  let s0 := new_Runtime (Some "app") in
  let s := store_of (@addDefaultPlugin Installation.node "/app" no_options s0) in
  (∀ key, @loadConfig Installation.node (Some "app") key
          = inr (Some {[ "defaults" := VObj {[ "color" := VBool true ]};
                         "verbose" := VBool false ]})) ∧
  @addDefaultPlugin Installation.node "/app" no_options s0
    = Thrown (ReferenceError "defaultPlugin") s ∧
  defaults (this s) = VObj ∅ ∧
  defaults (this s) ≠ VObj {[ "color" := VBool true ]} ∧
  config (this s) = ∅ ∧
  config (this s) ≠ {[ "verbose" := VBool false ]}.
Proof.
  cbn zeta. split; [done|]. split; [reflexivity|]. split; [reflexivity|].
  split; [|split; [reflexivity|]].
  - intros Heq. vm_compute in Heq. discriminate Heq.
  - intros Heq. vm_compute in Heq. discriminate Heq.
Qed.
